(** * DigiMesh frame tables and the neighbour-discovery post-processor

    A shallow embedding of [xbee/digimesh.py]: the two schema tables
    [api_commands] and [api_responses] of class [DigiMesh], and the method
    [_parse_FN_at_response], written in a small state-and-error monad so
    that the dictionary passed in by the caller, the class tables and the
    locals of the method are explicit.  The [while] loop of the method has
    no bound in the source; it is given fuel here, and a result is a result
    for some fuel. *)

From Stdlib Require Import ZArith Lia List.
From Stdlib Require Import Strings.Byte.
From stdpp Require Import base option list gmap strings.

Set Default Proof Using "Type".

(** * Part I: definitions *)

(** ** Byte strings *)

(** A Python [bytes] value. *)
Abbreviation bytes := (list byte).

#[global] Instance byte_eq_decision : EqDecision byte := Byte.byte_eq_dec.

(** [s[a:b]] for non-negative [a] and [b]: out-of-range bounds are clipped,
    and the slice is empty when [b <= a]. *)
Definition slice (a b : nat) (s : bytes) : bytes := take (b - a) (drop a s).

(** [bytes.lower()]: the ASCII letters [A]..[Z] are mapped to [a]..[z],
    every other byte is kept. *)
Definition byte_lower (c : byte) : byte :=
  let n := Byte.to_N c in
  if (65 <=? n)%N && (n <=? 90)%N
  then match Byte.of_N (n + 32) with Some c' => c' | None => c end
  else c.

Definition lower (s : bytes) : bytes := map byte_lower s.

(** The literals [b'fn'] and [b'\x00'] of the method. *)
Definition b_fn : bytes := [x66; x6e].
Definition b_nul : bytes := [x00].

(** ** Schema tables

    Field names, command names and response names are strings; a default
    is kept as the literal the table writes. *)

(** The ['len'] entry of a field descriptor: a number, [None], or the
    string ['null_terminated']. *)
Inductive field_len :=
| Fixed (n : nat)
| LenNone
| NullTerminated.

(** A default as the tables write it: a [str] literal such as ['\x08']
    (its characters, all below 256, are kept as bytes), or a [bytes]
    literal, written with a [b] prefix.  Every default of the two tables is
    a [str] literal; the [b] prefix is used for the keys of
    [api_responses] and in the method. *)
Inductive literal :=
| Str (chars : bytes)
| Bytes (b : bytes).

#[global] Instance literal_eq_decision : EqDecision literal.
Proof. solve_decision. Defined.

(** [len(d)] for a literal [d]. *)
Definition literal_len (d : literal) : nat :=
  match d with
  | Str chars => length chars
  | Bytes b => length b
  end.

(** A field descriptor [{'name': .., 'len': .., 'default': ..}]; a
    descriptor without a ['default'] key has [default = None]. *)
Record field := Field {
  name : string;
  len : field_len;
  default : option literal
}.

#[global] Instance field_len_eq_decision : EqDecision field_len.
Proof. solve_decision. Defined.

Definition api_commands : gmap string (list field) :=
  <[ "at" :=
       [ Field "id"               (Fixed 1) (Some (Str [x08]));
         Field "frame_id"         (Fixed 1) (Some (Str [x00]));
         Field "command"          (Fixed 2) None;
         Field "parameter"        LenNone   None ] ]>
 (<[ "queued_at" :=
       [ Field "id"               (Fixed 1) (Some (Str [x09]));
         Field "frame_id"         (Fixed 1) (Some (Str [x00]));
         Field "command"          (Fixed 2) None;
         Field "parameter"        LenNone   None ] ]>
 (<[ "remote_at" :=
       [ Field "id"               (Fixed 1) (Some (Str [x17]));
         Field "frame_id"         (Fixed 1) (Some (Str [x00]));
         Field "dest_addr_long"   (Fixed 8) None;
         Field "reserved"         (Fixed 2) (Some (Str [xff; xfe]));
         Field "options"          (Fixed 1) (Some (Str [x02]));
         Field "command"          (Fixed 2) None;
         Field "parameter"        LenNone   None ] ]>
 (<[ "tx" :=
       [ Field "id"               (Fixed 1) (Some (Str [x10]));
         Field "frame_id"         (Fixed 1) (Some (Str [x00]));
         Field "dest_addr"        (Fixed 8) None;
         Field "reserved"         (Fixed 2) (Some (Str [xff; xfe]));
         Field "broadcast_radius" (Fixed 1) (Some (Str [x00]));
         Field "options"          (Fixed 1) (Some (Str [x00]));
         Field "data"             LenNone   None ] ]> ∅))).

(** The only callable stored in the tables:
    [lambda self, original: self._parse_FN_at_response(original)]. *)
Inductive hook := Parse_FN_at_response.

(** A ['parsing'] list: pairs of a field name and a callable. *)
Abbreviation parsing_rules := (list (string * hook)).

(** Keys of the [api_responses] literal: the one-byte identifiers, and the
    string ['parsing'] that the literal also uses as a key of the outer
    dictionary. *)
Inductive pykey :=
| KBytes (b : bytes)
| KStr (s : string).

#[global] Instance pykey_eq_decision : EqDecision pykey.
Proof. solve_decision. Defined.

(** Values of the [api_responses] literal: a response description
    [{'name': .., 'structure': .., ('parsing': ..)}], or a bare list of
    parsing rules. *)
Inductive response_value :=
| Response (rname : string) (structure : list field)
           (parsing : option parsing_rules)
| Rules (rules : parsing_rules).

Definition rfield (n : string) (l : field_len) : field := Field n l None.

(** The dictionary literal, in source order.  The keys are pairwise
    distinct, so the association list is the dictionary. *)
Definition api_responses : list (pykey * response_value) :=
  [ (KBytes [x88],
     Response "at_response"
       [ rfield "frame_id" (Fixed 1);
         rfield "command" (Fixed 2);
         rfield "status" (Fixed 1);
         rfield "parameter" LenNone ]
       (Some [("parameter", Parse_FN_at_response)]));
    (KBytes [x8a],
     Response "status"
       [ rfield "status" (Fixed 1) ]
       None);
    (KBytes [x8b],
     Response "tx_status"
       [ rfield "frame_id" (Fixed 1);
         Field "reserved" (Fixed 2) (Some (Str [xff; xfe]));
         rfield "retries" (Fixed 1);
         rfield "deliver_status" (Fixed 1);
         rfield "discover_status" (Fixed 1) ]
       None);
    (KBytes [x90],
     Response "rx"
       [ rfield "frame_id" (Fixed 1);
         rfield "source_addr" (Fixed 7);
         rfield "reserved" (Fixed 2);
         rfield "options" (Fixed 1);
         rfield "data" LenNone ]
       None);
    (KBytes [x95],
     Response "node_id"
       [ rfield "source_addr_long" (Fixed 8);
         rfield "network_addr" (Fixed 2);
         rfield "options" (Fixed 1);
         rfield "source_addr" (Fixed 2);
         rfield "network_addr_long" (Fixed 8);
         rfield "node_id" NullTerminated;
         rfield "parent" (Fixed 2);
         rfield "unknown" LenNone ]
       None);
    (KBytes [x97],
     Response "remote_at_response"
       [ rfield "frame_id" (Fixed 1);
         rfield "source_addr" (Fixed 8);
         rfield "reserved" (Fixed 2);
         rfield "command" (Fixed 2);
         rfield "status" (Fixed 1);
         rfield "parameter" LenNone ]
       None);
    (KStr "parsing",
     Rules [("parameter", Parse_FN_at_response)]) ].

(** [d[k]] / [k in d] on the literal above. *)
Fixpoint assoc (k : pykey) (d : list (pykey * response_value))
  : option response_value :=
  match d with
  | [] => None
  | (k', v) :: d' => if decide (k = k') then Some v else assoc k d'
  end.

(** ** Records handed to the post-processor *)

(** The dictionary built for one response: its ['id'] entry holds the name
    of the response (a [str]), every other entry holds the raw bytes of a
    field.  A dictionary without an ['id'] entry is a [pydict] below, on
    which the method is [run_on]. *)
Record packet := Packet {
  id : string;
  fields : gmap string bytes
}.

(** ** State, exceptions and the monad *)

(** What the method can reach: the caller's dictionary, the two class
    tables, and its own locals [result] and [null_terminator_index]. *)
Record store := Store {
  packet_info : packet;
  cls_api_commands : gmap string (list field);
  cls_api_responses : list (pykey * response_value);
  result : gmap string bytes;
  null_terminator_index : nat
}.

(** [KeyError(key)], and
    [ValueError("Improper ND response length: expected {0}, read {1} bytes")]
    with its two format arguments. *)
Inductive exn :=
| KeyError (key : string)
| ValueError (expected read : nat).

(** An outcome of running with some fuel: a value, a raised exception, or
    the fuel ran out inside the [while] loop. *)
Inductive outcome (A : Type) :=
| Ok (a : A) (s : store)
| Raised (e : exn) (s : store)
| OutOfFuel.
Arguments Ok {A} a s.
Arguments Raised {A} e s.
Arguments OutOfFuel {A}.

Definition M (A : Type) : Type := store → outcome A.

Definition ret {A} (a : A) : M A := λ s, Ok a s.

Definition bind {A B} (m : M A) (k : A → M B) : M B :=
  λ s, match m s with
       | Ok a s' => k a s'
       | Raised e s' => Raised e s'
       | OutOfFuel => OutOfFuel
       end.

Definition raise {A} (e : exn) : M A := λ s, Raised e s.

Notation "'let*' x ':=' m 'in' k" := (bind m (λ x, k))
  (at level 10, x name, m at level 100, k at level 200,
   format "'let*'  x  ':='  m  'in'  '/' k").
Notation "m >> k" := (bind m (λ _, k))
  (at level 100, k at level 200, right associativity,
   format "m  >>  '/' k").

(** [packet_info['id']] *)
Definition get_id : M string := λ s, Ok (id (packet_info s)) s.

(** [packet_info[k]] for a field key [k]. *)
Definition getitem (k : string) : M bytes :=
  λ s, match fields (packet_info s) !! k with
       | Some v => Ok v s
       | None => Raised (KeyError k) s
       end.

(** [packet_info['parameter'][a:b]] *)
Definition parameter_slice (a b : nat) : M bytes :=
  let* p := getitem "parameter" in ret (slice a b p).

(** [len(packet_info['parameter'])] *)
Definition parameter_len : M nat :=
  let* p := getitem "parameter" in ret (length p).

Definition get_index : M nat := λ s, Ok (null_terminator_index s) s.

Definition with_index (i : nat) (s : store) : store :=
  {| packet_info := packet_info s;
     cls_api_commands := cls_api_commands s;
     cls_api_responses := cls_api_responses s;
     result := result s;
     null_terminator_index := i |}.

Definition with_result (r : gmap string bytes) (s : store) : store :=
  {| packet_info := packet_info s;
     cls_api_commands := cls_api_commands s;
     cls_api_responses := cls_api_responses s;
     result := r;
     null_terminator_index := null_terminator_index s |}.

(** [null_terminator_index = i] *)
Definition set_index (i : nat) : M unit := λ s, Ok tt (with_index i s).

(** [result = r] *)
Definition set_result (r : gmap string bytes) : M unit :=
  λ s, Ok tt (with_result r s).

Definition get_result : M (gmap string bytes) := λ s, Ok (result s) s.

(** [result[k] = v] *)
Definition setitem (k : string) (v : bytes) : M unit :=
  let* r := get_result in set_result (<[k := v]> r).

(** ** The method [_parse_FN_at_response] *)

(** The condition of the [if], with the short-circuit order of [and]. *)
Definition trigger : M bool :=
  let* i := get_id in
  if bool_decide (i ∈ ["at_response"; "at_remote_response"]) then
    let* c := getitem "command" in
    if bool_decide (lower c = b_fn) then
      let* st := getitem "status" in
      ret (bool_decide (st = b_nul))
    else ret false
  else ret false.

(** [while packet_info['parameter'][i:i+1] != b'\x00': i += 1] *)
Fixpoint scan (fuel : nat) : M unit :=
  match fuel with
  | O => λ _, OutOfFuel
  | S fuel' =>
      let* i := get_index in
      let* c := parameter_slice i (i + 1) in
      if bool_decide (c ≠ b_nul) then
        (let* i := get_index in set_index (i + 1)) >> scan fuel'
      else ret tt
  end.

(** [len(packet_info['parameter']) - null_terminator_index - 9], over the
    integers. *)
Definition remaining : M Z :=
  let* n := parameter_len in
  let* i := get_index in
  ret (Z.of_nat n - Z.of_nat i - 9)%Z.

Definition _parse_FN_at_response (fuel : nat)
  : M (option (gmap string bytes)) :=
  let* c := trigger in
  if c then
    set_result ∅ >>
    (let* v := parameter_slice 0 2 in setitem "source_addr" v) >>
    (let* v := parameter_slice 2 10 in setitem "source_addr_long" v) >>
    set_index 10 >>
    scan fuel >>
    (let* i := get_index in let* v := parameter_slice 10 i in
     setitem "node_identifier" v) >>
    (let* i := get_index in let* v := parameter_slice (i + 1) (i + 3) in
     setitem "parent_address" v) >>
    (let* i := get_index in let* v := parameter_slice (i + 3) (i + 4) in
     setitem "device_type" v) >>
    (let* i := get_index in let* v := parameter_slice (i + 4) (i + 5) in
     setitem "status" v) >>
    (let* i := get_index in let* v := parameter_slice (i + 5) (i + 7) in
     setitem "profile_id" v) >>
    (let* i := get_index in let* v := parameter_slice (i + 7) (i + 9) in
     setitem "manufacturer" v) >>
    (let* r := remaining in
     if (r =? 4)%Z then
       (let* i := get_index in let* v := parameter_slice (i + 9) (i + 13) in
        setitem "device_type_id" v) >>
       (let* i := get_index in set_index (i + 4))
     else
       let* r := remaining in
       if (r =? 5)%Z then
         (let* i := get_index in let* v := parameter_slice (i + 9) (i + 13) in
          setitem "device_type_id" v) >>
         (let* i := get_index in let* v := parameter_slice (i + 13) (i + 14) in
          setitem "rssi" v) >>
         (let* i := get_index in set_index (i + 5))
       else ret tt) >>
    let* i := get_index in
    let* n := parameter_len in
    if bool_decide (i + 9 ≠ n) then
      let* n := parameter_len in
      let* i := get_index in
      raise (ValueError n (i + 9))
    else
      let* r := get_result in ret (Some r)
  else ret None.

(** The store in which the method starts when called on [p]: the tables of
    the class, and locals that are not yet bound. *)
Definition call_store (p : packet) : store :=
  {| packet_info := p;
     cls_api_commands := api_commands;
     cls_api_responses := api_responses;
     result := ∅;
     null_terminator_index := 0 |}.

(** What the caller observes. *)
Inductive observation :=
| Returns (v : option (gmap string bytes))
| Raises (e : exn)
| NoOutcome.

Definition observe {A} (f : A → option (gmap string bytes)) (o : outcome A)
  : observation :=
  match o with
  | Ok a _ => Returns (f a)
  | Raised e _ => Raises e
  | OutOfFuel => NoOutcome
  end.

Definition run (fuel : nat) (p : packet) : observation :=
  observe (λ v, v) (_parse_FN_at_response fuel (call_store p)).

(** ** The encoder and the decoder

    The tables are interpreted by [XBeeBase] in [xbee/base.py], which is
    not among the sources; both walks are written from the
    specification. *)

(** Modelled from the spec: the error kinds of the codec (§7), which
    [xbee/base.py] would raise.  [MalformedSubRecord] carries the exception
    of the post-processor; [WrongFieldLength] stands for an override whose
    length is not the declared one, which §4.2 forbids without naming an
    error; [NotBytes] stands for the [TypeError] of Python when a [str]
    is to be joined to a byte sequence. *)
Inductive codec_error :=
| UnsupportedCommand
| UnknownResponseType
| MissingRequiredField (fname cmd : string)
| WrongFieldLength (fname cmd : string)
| NotBytes (fname cmd : string)
| TruncatedFrame
| UnterminatedField
| TrailingData
| MalformedSubRecord (e : exn).

(** Modelled from the spec: a value or a typed failure (§7), the result of
    the encoder and the decoder of [xbee/base.py]. *)
Inductive codec_result (A : Type) :=
| Success (a : A)
| Failure (e : codec_error).
Arguments Success {A} a.
Arguments Failure {A} e.

(** Modelled from the spec: failures are passed on unchanged (§7), as in
    the encoder and the decoder of [xbee/base.py]. *)
Definition codec_map {A B} (f : A → B) (r : codec_result A) : codec_result B :=
  match r with
  | Success a => Success (f a)
  | Failure e => Failure e
  end.

(** Modelled from the spec: field resolution of the frame encoder (§4.2;
    the encoder of [xbee/base.py] is not among the sources): the override
    if there is one, whose length must be the declared fixed length; else
    the default; else a missing-field error.  The resolved value goes into
    a byte sequence: a default that is a [bytes] literal does, a default
    that is a [str] literal does not ([bytes + str] is a [TypeError]). *)
Definition resolve_field (cmd : string) (overrides : gmap string bytes)
    (f : field) : codec_result bytes :=
  match overrides !! name f with
  | Some v =>
      match len f with
      | Fixed n =>
          if decide (length v = n) then Success v
          else Failure (WrongFieldLength (name f) cmd)
      | _ => Success v
      end
  | None =>
      match default f with
      | Some (Bytes d) => Success d
      | Some (Str _) => Failure (NotBytes (name f) cmd)
      | None => Failure (MissingRequiredField (name f) cmd)
      end
  end.

(** Modelled from the spec: concatenation of the resolved fields in schema
    order (§4.2; the encoder of [xbee/base.py] is not among the sources),
    without separators or length prefixes. *)
Fixpoint encode_fields (cmd : string) (overrides : gmap string bytes)
    (schema : list field) : codec_result bytes :=
  match schema with
  | [] => Success []
  | f :: fs =>
      match resolve_field cmd overrides f with
      | Success v => codec_map (app v) (encode_fields cmd overrides fs)
      | Failure e => Failure e
      end
  end.

(** Modelled from the spec: [encode(command_name, field_overrides)] of
    §4.2 (the encoder of [xbee/base.py] is not among the sources), over the
    table [api_commands] of the source. *)
Definition encode (cmd : string) (overrides : gmap string bytes)
  : codec_result bytes :=
  match api_commands !! cmd with
  | Some schema => encode_fields cmd overrides schema
  | None => Failure UnsupportedCommand
  end.

(** Modelled from the spec: the scan for the first zero byte of a
    null-terminated field (§4.3; the decoder of [xbee/base.py] is not among
    the sources); the index of that byte. *)
Fixpoint find_nul (bs : bytes) : option nat :=
  match bs with
  | [] => None
  | c :: bs' => if decide (c = x00) then Some 0 else S <$> find_nul bs'
  end.

(** Modelled from the spec: the walk of the frame decoder over a field
    list (§4.3; the decoder of [xbee/base.py] is not among the sources): a fixed
    count consumes exactly that many bytes, a null-terminated field takes
    the bytes before the first zero byte and discards the terminator, a
    field without length takes the rest; bytes left over at the end are an
    error. *)
Fixpoint split_fields (schema : list field) (bs : bytes)
  : codec_result (list (string * bytes)) :=
  match schema with
  | [] =>
      match bs with
      | [] => Success []
      | _ :: _ => Failure TrailingData
      end
  | f :: fs =>
      match len f with
      | Fixed n =>
          if decide (n ≤ length bs)
          then codec_map (cons (name f, take n bs)) (split_fields fs (drop n bs))
          else Failure TruncatedFrame
      | NullTerminated =>
          match find_nul bs with
          | Some k =>
              codec_map (cons (name f, take k bs))
                        (split_fields fs (drop (S k) bs))
          | None => Failure UnterminatedField
          end
      | LenNone =>
          codec_map (cons (name f, bs)) (split_fields fs [])
      end
  end.

(** Modelled from the spec: [decode(raw_bytes)] of §4.3 (the decoder of
    [xbee/base.py] is not among the sources), up to the point where the
    post-parse hooks are invoked: the leading byte selects the response
    description in the table [api_responses] of the source, and the rest of
    the frame is walked against its field list.  The result is the record,
    which carries the name of the response as its ['id'], and the hooks
    that the description declares for it. *)
Definition decode (raw : bytes) : codec_result (packet * parsing_rules) :=
  match raw with
  | [] => Failure UnknownResponseType
  | ty :: payload =>
      match assoc (KBytes [ty]) api_responses with
      | Some (Response nm structure parsing) =>
          codec_map (λ l, (Packet nm (list_to_map l),
                           match parsing with
                           | Some rules => rules
                           | None => []
                           end))
                    (split_fields structure payload)
      | _ => Failure UnknownResponseType
      end
  end.

(** ** Notions used in the statements *)

(** [t] is the index at which the loop stops when started at [i]: the
    first zero byte at or after [i]. *)
Definition first_nul_from (i : nat) (p : bytes) (t : nat) : Prop :=
  i ≤ t ∧ p !! t = Some x00 ∧ x00 ∉ slice i t p.

#[global] Instance first_nul_from_dec i p t : Decision (first_nul_from i p t).
Proof. unfold first_nul_from. apply _. Defined.

(** The conjunction tested by the [if]. *)
Definition triggers (q : packet) : Prop :=
  id q ∈ ["at_response"; "at_remote_response"] ∧
  lower <$> fields q !! "command" = Some b_fn ∧
  fields q !! "status" = Some b_nul.

#[global] Instance triggers_dec q : Decision (triggers q).
Proof. unfold triggers. apply _. Defined.

(** [len(P) - (t + 9)] *)
Definition remaining_after (p : bytes) (t : nat) : Z :=
  (Z.of_nat (length p) - (Z.of_nat t + 9))%Z.

(** The entries written before the length test. *)
Definition nd_fields (p : bytes) (t : nat) : gmap string bytes :=
  <["manufacturer" := slice (t + 7) (t + 9) p]>
 (<["profile_id" := slice (t + 5) (t + 7) p]>
 (<["status" := slice (t + 4) (t + 5) p]>
 (<["device_type" := slice (t + 3) (t + 4) p]>
 (<["parent_address" := slice (t + 1) (t + 3) p]>
 (<["node_identifier" := slice 10 t p]>
 (<["source_addr_long" := slice 2 10 p]>
 (<["source_addr" := slice 0 2 p]> ∅))))))).

Definition nd_fields_4 (p : bytes) (t : nat) : gmap string bytes :=
  <["device_type_id" := slice (t + 9) (t + 13) p]> (nd_fields p t).

Definition nd_fields_5 (p : bytes) (t : nat) : gmap string bytes :=
  <["rssi" := slice (t + 13) (t + 14) p]> (nd_fields_4 p t).

(** The lower-case form of "ND". *)
Definition b_nd : bytes := [x6e; x64].

(** §4.4: the record's type is an AT-style response, direct or remote, its
    command is "ND" in any case, and its status is the zero byte. *)
Definition spec_triggers (q : packet) : Prop :=
  id q ∈ ["at_response"; "remote_at_response"] ∧
  lower <$> fields q !! "command" = Some b_nd ∧
  fields q !! "status" = Some b_nul.

#[global] Instance spec_triggers_dec q : Decision (spec_triggers q).
Proof. unfold spec_triggers. apply _. Defined.

(** A command schema that can be split again: fixed fields, then at most
    one field without length, at the end. *)
Fixpoint splittable (schema : list field) : bool :=
  match schema with
  | [] => true
  | f :: fs =>
      match len f, fs with
      | Fixed _, _ => splittable fs
      | LenNone, [] => true
      | _, _ => false
      end
  end.

(** The overrides supply a value of the declared length for every field. *)
Definition covers (overrides : gmap string bytes) (schema : list field) : Prop :=
  Forall (λ f, match overrides !! name f with
               | Some v =>
                   match len f with
                   | Fixed n => length v = n
                   | _ => True
                   end
               | None => False
               end) schema.

#[global] Instance covers_dec ov schema : Decision (covers ov schema).
Proof.
  unfold covers. apply Forall_dec. intros f.
  destruct (ov !! name f); [|apply _].
  destruct (len f); apply _.
Defined.

(** The supplied values, in schema order. *)
Definition supplied (overrides : gmap string bytes) (schema : list field)
  : list (string * bytes) :=
  omap (λ f, match overrides !! name f with
             | Some v => Some (name f, v)
             | None => None
             end) schema.

(** The field values of a walk, joined in order. *)
Definition joined (l : list (string * bytes)) : bytes := concat (map snd l).

(** ** Relations between programs and stores *)

(** More fuel does not change an outcome that was reached:
    [extends m' m] says that [m'] agrees with [m] wherever [m] has an
    outcome. *)
Definition extends {A} (m' m : M A) : Prop :=
  ∀ s, m s ≠ OutOfFuel → m' s = m s.

(** The part of the store that the caller can see. *)
Definition visible (s : store) :=
  (packet_info s, cls_api_commands s, cls_api_responses s).

(** [m] writes to the locals only. *)
Definition preserves {A} (m : M A) : Prop :=
  ∀ s, match m s with
       | Ok _ s' | Raised _ s' => visible s' = visible s
       | OutOfFuel => True
       end.

Create HintDb frame discriminated.

(** Two stores agree up to level [lv]: on the argument (always), on the
    local [result] (from level 1), on the local index (from level 2). *)
Definition agree (lv : nat) (s1 s2 : store) : Prop :=
  packet_info s1 = packet_info s2 ∧
  (1 ≤ lv → result s1 = result s2) ∧
  (2 ≤ lv → null_terminator_index s1 = null_terminator_index s2).

(** Started in stores that agree up to [lv], [m] has the same value or
    exception in both, and ends in stores that agree up to [lv']. *)
Definition respects {A} (lv lv' : nat) (m : M A) : Prop :=
  ∀ s1 s2, agree lv s1 s2 →
    match m s1, m s2 with
    | Ok a1 s1', Ok a2 s2' => a1 = a2 ∧ agree lv' s1' s2'
    | Raised e1 s1', Raised e2 s2' => e1 = e2 ∧ agree lv' s1' s2'
    | OutOfFuel, OutOfFuel => True
    | _, _ => False
    end.

(** [m] never has the value [None]. *)
Definition never_none {A} (m : M (option A)) : Prop :=
  ∀ s s', m s ≠ Ok None s'.

(** ** Sample records *)

(** A discovery payload: short address, long address, the identifier
    ["AB"], its terminator, the eight fixed bytes, and a tail. *)
Definition nd_parameter (tail : bytes) : bytes :=
  [x12; x34] ++ [x00; x13; xa2; x00; x40; x0a; x0b; x0c]
  ++ [x41; x42] ++ [x00]
  ++ [xff; xfe] ++ [x01] ++ [x00] ++ [xc1; x05] ++ [x10; x1e] ++ tail.

(** A payload without any zero byte from index 10 on. *)
Definition unterminated_parameter : bytes :=
  [x12; x34] ++ [x00; x13; xa2; x00; x40; x0a; x0b; x0c] ++ [x41; x42; x43].

Definition at_packet (i : string) (cmd st p : bytes) : packet :=
  Packet i (<["frame_id" := [x01]]> (<["command" := cmd]>
           (<["status" := st]> (<["parameter" := p]> ∅)))).

Definition tail4 : bytes := [x00; x03; x00; x00].
Definition tail5 : bytes := [x00; x03; x00; x00; x2b].

Definition fn_packet (tail : bytes) : packet :=
  at_packet "at_response" [x46; x4e] [x00] (nd_parameter tail).

Definition nd_packet : packet :=
  at_packet "at_response" [x4e; x44] [x00] (nd_parameter tail4).

Definition remote_fn_packet : packet :=
  at_packet "remote_at_response" [x46; x4e] [x00] (nd_parameter tail4).

Definition unterminated_packet : packet :=
  at_packet "at_response" [x46; x4e] [x00] unterminated_parameter.

Definition remote_at_overrides : gmap string bytes :=
  <["id" := [x17]]> (<["frame_id" := [x05]]>
 (<["dest_addr_long" := [x00; x13; xa2; x00; x40; x0a; x0b; x0c]]>
 (<["reserved" := [xff; xfe]]> (<["options" := [x02]]>
 (<["command" := [x46; x4e]]> (<["parameter" := [x01; x02; x03]]> ∅)))))).

(** ** Notions used for the further properties *)

(** The default of a field read as the bytes it denotes: the literal with
    a [b] prefix put in front. *)
Definition with_b_prefix (f : field) : field :=
  Field (name f) (len f)
        (match default f with
         | Some (Str chars) => Some (Bytes chars)
         | d => d
         end).

(** The overrides [dest_addr] = eight zero bytes and [data] = [b"hi"]. *)
Definition tx_overrides : gmap string bytes :=
  <["dest_addr" := replicate 8 x00]> (<["data" := [x68; x69]]> ∅).

(** A dictionary as any caller may pass it: the ['id'] entry may be
    missing as well. *)
Record pydict := Dict {
  d_id : option string;
  d_fields : gmap string bytes
}.

(** The method on such a dictionary: [packet_info['id']] is the first
    subscript that line 146 evaluates, so without an ['id'] entry
    [KeyError('id')] is raised before anything else is looked at. *)
Definition run_on (fuel : nat) (d : pydict) : observation :=
  match d_id d with
  | None => Raises (KeyError "id")
  | Some i => run fuel (Packet i (d_fields d))
  end.

(** The two names in the tuple of the [if]. *)
Definition guard_names : list string := ["at_response"; "at_remote_response"].

(** The value of the condition of the [if], or the [KeyError] that its
    evaluation raises, read off the record alone. *)
Definition guard (q : packet) : exn + bool :=
  if decide (id q ∈ guard_names) then
    match fields q !! "command" with
    | None => inl (KeyError "command")
    | Some c =>
        if decide (lower c = b_fn) then
          match fields q !! "status" with
          | None => inl (KeyError "status")
          | Some st => inr (bool_decide (st = b_nul))
          end
        else inr false
    end
  else inr false.

(** The four byte strings that [lower] maps to [b'fn']. *)
Definition fn_spellings : list bytes :=
  [ [x66; x6e]; [x66; x4e]; [x46; x6e]; [x46; x4e] ].

(** The entries of the record that the method reads. *)
Definition view (q : packet)
  : string * option bytes * option bytes * option bytes :=
  (id q, lower <$> fields q !! "command", fields q !! "status",
   fields q !! "parameter").

(** [r.get(k, b'')] *)
Definition entry (r : gmap string bytes) (k : string) : bytes :=
  match r !! k with
  | Some v => v
  | None => []
  end.

(** The entries of a returned record in the order of the payload, with the
    terminator after the identifier. *)
Definition layout (r : gmap string bytes) : bytes :=
  entry r "source_addr" ++ entry r "source_addr_long"
  ++ entry r "node_identifier" ++ [x00]
  ++ entry r "parent_address" ++ entry r "device_type"
  ++ entry r "status" ++ entry r "profile_id" ++ entry r "manufacturer"
  ++ entry r "device_type_id" ++ entry r "rssi".

(** A payload put together from its parts. *)
Definition nd_payload (sa sal ni parent dt st pid man tail : bytes) : bytes :=
  sa ++ sal ++ ni ++ [x00] ++ parent ++ dt ++ st ++ pid ++ man ++ tail.

(** The record of the eight base fields with the given values. *)
Definition nd_record (sa sal ni parent dt st pid man : bytes)
  : gmap string bytes :=
  <["manufacturer" := man]> (<["profile_id" := pid]> (<["status" := st]>
 (<["device_type" := dt]> (<["parent_address" := parent]>
 (<["node_identifier" := ni]> (<["source_addr_long" := sal]>
 (<["source_addr" := sa]> ∅))))))).

(** The keys of the eight base fields. *)
Definition base_keys : gset string :=
  {[ "source_addr"; "source_addr_long"; "node_identifier"; "parent_address";
     "device_type"; "status"; "profile_id"; "manufacturer" ]}.

(** A default, where a field has one, has the declared length. *)
Definition default_fits (f : field) : Prop :=
  match default f, len f with
  | Some d, Fixed n => literal_len d = n
  | Some _, _ => False
  | None, _ => True
  end.

#[global] Instance default_fits_dec f : Decision (default_fits f).
Proof. unfold default_fits. destruct (default f), (len f); apply _. Defined.

(** Every field but the last has a length or a terminator: a field
    without length can only be the last one. *)
Fixpoint open_only_last (schema : list field) : Prop :=
  match schema with
  | [] => True
  | [f] => True
  | f :: fs => len f ≠ LenNone ∧ open_only_last fs
  end.

#[global] Instance open_only_last_dec schema : Decision (open_only_last schema).
Proof.
  induction schema as [|f [|f' fs] IH]; [apply _..|].
  change (Decision (len f ≠ LenNone ∧ open_only_last (f' :: fs))). apply _.
Defined.

(** * Part II: properties *)

(** ** Slices *)

Lemma slice_length a b (s : bytes) :
  length (slice a b s) = min (b - a) (length s - a).
Proof. unfold slice. by rewrite length_take, length_drop. Qed.

Lemma slice_one i (s : bytes) :
  slice i (i + 1) s = match s !! i with Some c => [c] | None => [] end.
Proof.
  unfold slice. replace (i + 1 - i) with 1 by lia.
  pose proof (lookup_drop s i 0) as H. rewrite Nat.add_0_r in H.
  rewrite <- H. by destruct (drop i s).
Qed.

Lemma slice_one_nul i (s : bytes) : slice i (i + 1) s = b_nul ↔ s !! i = Some x00.
Proof.
  rewrite slice_one. unfold b_nul.
  destruct (s !! i); split; intros; simplify_eq; done.
Qed.

Lemma slice_app a b c (s : bytes) :
  a ≤ b → b ≤ c → slice a b s ++ slice b c s = slice a c s.
Proof.
  intros Hab Hbc. unfold slice.
  replace (drop b s) with (drop (b - a) (drop a s))
    by (rewrite drop_drop; f_equal; lia).
  rewrite take_take_drop. f_equal. lia.
Qed.

Lemma slice_app_r a b c (s l : bytes) :
  a ≤ b → b ≤ c → slice a b s ++ slice b c s ++ l = slice a c s ++ l.
Proof. intros. by rewrite app_assoc, slice_app. Qed.

Lemma slice_drop a (s : bytes) : slice 0 a s ++ drop a s = s.
Proof. unfold slice. rewrite Nat.sub_0_r, drop_0. apply take_drop. Qed.

Lemma elem_of_drop_lookup (s : bytes) i c :
  c ∉ drop i s → ∀ j, i ≤ j → s !! j ≠ Some c.
Proof.
  intros Hn j Hj Hc. apply Hn. apply list_elem_of_lookup.
  exists (j - i). rewrite lookup_drop. by replace (i + (j - i)) with j by lia.
Qed.

(** ** The terminator *)

Lemma first_nul_from_before i p t j :
  first_nul_from i p t → i ≤ j < t → p !! j ≠ Some x00.
Proof.
  intros (_ & _ & Hn) Hj Hz. apply Hn.
  apply list_elem_of_lookup. exists (j - i).
  unfold slice. rewrite lookup_take_lt by lia.
  rewrite lookup_drop. by replace (i + (j - i)) with j by lia.
Qed.

Lemma first_nul_from_lt i p t : first_nul_from i p t → t < length p.
Proof. intros (_ & Ht & _). by eapply lookup_lt_Some. Qed.

Lemma first_nul_from_step i p t :
  first_nul_from i p t → p !! i ≠ Some x00 → first_nul_from (S i) p t.
Proof.
  intros (Hle & Ht & Hn) Hi.
  assert (i ≠ t) by congruence.
  split; [lia|]. split; [done|].
  intros Hin. apply Hn.
  apply list_elem_of_lookup in Hin as [k Hk].
  apply list_elem_of_lookup. exists (S k).
  unfold slice in *.
  apply lookup_take_Some in Hk as [Hk ?].
  rewrite lookup_drop in Hk.
  rewrite lookup_take_lt by lia.
  rewrite lookup_drop. by replace (i + S k) with (S i + k) by lia.
Qed.

Lemma first_nul_from_unique i p t t' :
  first_nul_from i p t → first_nul_from i p t' → t = t'.
Proof.
  intros H H'.
  destruct (Nat.lt_trichotomy t t') as [Hlt | [-> | Hlt]]; [|done|].
  - destruct H as (? & Ht & _).
    by destruct (first_nul_from_before _ _ _ t H' ltac:(lia)).
  - destruct H' as (? & Ht & _).
    by destruct (first_nul_from_before _ _ _ t' H ltac:(lia)).
Qed.

(** ** Running the primitives *)

Section primitives.
Context (s : store) (p : bytes).
Hypothesis Hp : fields (packet_info s) !! "parameter" = Some p.

Lemma getitem_parameter : getitem "parameter" s = Ok p s.
Proof using Hp. unfold getitem. by rewrite Hp. Qed.

Lemma parameter_slice_ok a b : parameter_slice a b s = Ok (slice a b p) s.
Proof using Hp. unfold parameter_slice, bind. by rewrite getitem_parameter. Qed.

Lemma parameter_len_ok : parameter_len s = Ok (length p) s.
Proof using Hp. unfold parameter_len, bind. by rewrite getitem_parameter. Qed.

Lemma remaining_ok :
    remaining s =
    Ok (Z.of_nat (length p) - Z.of_nat (null_terminator_index s) - 9)%Z s.
Proof using Hp. unfold remaining, bind. by rewrite parameter_len_ok. Qed.
End primitives.

Lemma with_index_same s : with_index (null_terminator_index s) s = s.
Proof. by destruct s. Qed.

(** ** The loop *)

(** The loop stops at the first zero byte at or after its start, given
    fuel for the iterations in between. *)
Lemma scan_finds p t : ∀ fuel s,
  fields (packet_info s) !! "parameter" = Some p →
  first_nul_from (null_terminator_index s) p t →
  t - null_terminator_index s < fuel →
  scan fuel s = Ok tt (with_index t s).
Proof.
  induction fuel as [|fuel IH]; intros s Hp Hf Hfuel; [lia|].
  cbn [scan]. unfold bind at 1. unfold get_index at 1.
  unfold bind at 1. rewrite (parameter_slice_ok _ _ Hp).
  case_bool_decide as Hc.
  - rewrite slice_one_nul in Hc.
    pose proof (first_nul_from_step _ _ _ Hf Hc) as Hf'.
    unfold bind, get_index, set_index.
    rewrite Nat.add_1_r.
    rewrite (IH (with_index _ s)); [done|done|done|].
    destruct Hf' as [? _]. cbn in *. lia.
  - rewrite slice_one_nul in Hc.
    assert (t = null_terminator_index s) as ->.
    { destruct (decide (t = null_terminator_index s)) as [|Hne]; [done|].
      pose proof Hf as [? _].
      destruct (first_nul_from_before _ _ _ (null_terminator_index s) Hf);
        [lia|done]. }
    unfold ret. by rewrite with_index_same.
Qed.

(** Without a zero byte at or after its start the loop uses up any fuel:
    past the end of the bytes the slice is empty, which differs from
    [b'\x00'] as well. *)
Lemma scan_no_nul p : ∀ fuel s,
  fields (packet_info s) !! "parameter" = Some p →
  (∀ j, null_terminator_index s ≤ j → p !! j ≠ Some x00) →
  scan fuel s = OutOfFuel.
Proof.
  induction fuel as [|fuel IH]; intros s Hp Hno; [done|].
  cbn [scan]. unfold bind at 1. unfold get_index at 1.
  unfold bind at 1. rewrite (parameter_slice_ok _ _ Hp).
  rewrite bool_decide_true
    by (rewrite slice_one_nul; apply Hno; lia).
  unfold bind, get_index, set_index.
  rewrite (IH (with_index _ s)); [done|done|].
  cbn. intros j Hj. apply Hno. lia.
Qed.

Lemma extends_refl {A} (m : M A) : extends m m.
Proof. by intros s. Qed.

Lemma extends_bind {A B} (m' m : M A) (k' k : A → M B) :
  extends m' m → (∀ a, extends (k' a) (k a)) →
  extends (bind m' k') (bind m k).
Proof.
  intros Hm Hk s. unfold bind. specialize (Hm s).
  destruct (m s) as [a s'| |] eqn:E.
  - rewrite Hm by done. apply Hk.
  - by rewrite Hm.
  - done.
Qed.

Lemma extends_if {A} (b : bool) (m1' m1 m2' m2 : M A) :
  extends m1' m1 → extends m2' m2 →
  extends (if b then m1' else m2') (if b then m1 else m2).
Proof. by destruct b. Qed.

Lemma scan_fuel_mono fuel fuel' :
  fuel ≤ fuel' → extends (scan fuel') (scan fuel).
Proof.
  revert fuel'. induction fuel as [|fuel IH]; intros fuel' Hle.
  { intros s Hs. by destruct Hs. }
  destruct fuel' as [|fuel']; [lia|]. cbn [scan].
  apply extends_bind; [apply extends_refl|intros i].
  apply extends_bind; [apply extends_refl|intros c].
  apply extends_if; [|apply extends_refl].
  apply extends_bind; [apply extends_refl|intros _].
  apply IH. lia.
Qed.

(** ** The condition *)

Lemma trigger_true s : triggers (packet_info s) → trigger s = Ok true s.
Proof.
  intros (Hid & Hc & Hst). unfold trigger, bind, get_id, getitem, ret.
  rewrite bool_decide_true by done.
  destruct (fields (packet_info s) !! "command") as [c|]; [|done].
  rewrite bool_decide_true by (by simplify_eq/=).
  rewrite Hst. by rewrite bool_decide_true.
Qed.

Lemma trigger_false s :
  ¬ triggers (packet_info s) →
  id (packet_info s) ∉ ["at_response"; "at_remote_response"] ∨
  (is_Some (fields (packet_info s) !! "command") ∧
   is_Some (fields (packet_info s) !! "status")) →
  trigger s = Ok false s.
Proof.
  intros Hn Hkeys. unfold trigger, bind, get_id, getitem, ret.
  case_bool_decide as Hid; [|done].
  destruct Hkeys as [?|[[c Hc] [st Hst]]]; [done|].
  rewrite Hc. case_bool_decide as Hl; [|done].
  rewrite Hst. rewrite bool_decide_false; [done|].
  intros ->. apply Hn. repeat split; [done| |done]. by rewrite Hc, <- Hl.
Qed.

(** ** The straight-line part *)

(** Forward execution of a program that starts with a primitive. *)
Lemma bind_ok {A B} (m : M A) (k : A → M B) s a s' r :
  m s = Ok a s' → k a s' = r → bind m k s = r.
Proof. unfold bind. by intros -> ->. Qed.

Lemma bind_assoc {A B C} (m : M A) (k1 : A → M B) (k2 : B → M C) s r :
  bind m (λ a, bind (k1 a) k2) s = r → bind (bind m k1) k2 s = r.
Proof. unfold bind. by destruct (m s). Qed.

Ltac run_prim Hp :=
  lazymatch goal with
  | |- parameter_slice _ _ _ = _ => apply parameter_slice_ok; exact Hp
  | |- parameter_len _ = _ => apply parameter_len_ok; exact Hp
  | |- remaining _ = _ => apply remaining_ok; exact Hp
  | |- _ => reflexivity
  end.

Ltac run_step Hp :=
  lazymatch goal with
  | |- bind (bind _ _) _ _ = _ => apply bind_assoc; cbv beta
  | |- bind (if _ then _ else _) _ _ = _ => fail
  | |- bind (scan _) _ _ = _ => fail
  | |- bind _ _ _ = _ =>
      eapply bind_ok; [run_prim Hp|];
      cbv beta;
      unfold with_index, with_result;
      cbn [packet_info result null_terminator_index cls_api_commands
           cls_api_responses]
  end.

Lemma parse_FN_body fuel q p t :
  triggers q →
  fields q !! "parameter" = Some p →
  first_nul_from 10 p t →
  t - 10 < fuel →
  _parse_FN_at_response fuel (call_store q) =
  if decide (length p = t + 13) then
    Ok (Some (nd_fields_4 p t))
       (Store q api_commands api_responses (nd_fields_4 p t) (t + 4))
  else if decide (length p = t + 14) then
    Ok (Some (nd_fields_5 p t))
       (Store q api_commands api_responses (nd_fields_5 p t) (t + 5))
  else if decide (length p = t + 9) then
    Ok (Some (nd_fields p t))
       (Store q api_commands api_responses (nd_fields p t) t)
  else
    Raised (ValueError (length p) (t + 9))
       (Store q api_commands api_responses (nd_fields p t) t).
Proof.
  intros Htr Hp Hf Hfuel.
  unfold _parse_FN_at_response.
  eapply bind_ok; [by apply trigger_true|]. cbv beta iota.
  unfold call_store.
  repeat run_step Hp.
  eapply bind_ok; [apply (scan_finds p t); [exact Hp|exact Hf|exact Hfuel]|].
  cbv beta. unfold with_index.
  cbn [packet_info result null_terminator_index cls_api_commands
       cls_api_responses].
  repeat run_step Hp.
  pose proof (first_nul_from_lt _ _ _ Hf) as Hlt.
  fold (nd_fields p t).
  destruct (Z.eqb_spec (Z.of_nat (length p) - Z.of_nat t - 9) 4) as [H4|H4].
  { repeat run_step Hp.
    case_bool_decide; [exfalso; lia|].
    rewrite decide_True by lia. reflexivity. }
  repeat run_step Hp.
  destruct (Z.eqb_spec (Z.of_nat (length p) - Z.of_nat t - 9) 5) as [H5|H5].
  { repeat run_step Hp.
    case_bool_decide; [exfalso; lia|].
    rewrite decide_False, decide_True by lia. reflexivity. }
  repeat run_step Hp.
  rewrite !(decide_False (P := length p = t + 13)),
          !(decide_False (P := length p = t + 14)) by lia.
  case_bool_decide.
  - repeat run_step Hp. rewrite decide_False by lia. reflexivity.
  - rewrite decide_True by lia. reflexivity.
Qed.

(** ** What the whole method does *)

Lemma parse_FN_not_triggered fuel q :
  ¬ triggers q →
  id q ∉ ["at_response"; "at_remote_response"] ∨
  (is_Some (fields q !! "command") ∧ is_Some (fields q !! "status")) →
  _parse_FN_at_response fuel (call_store q) = Ok None (call_store q).
Proof.
  intros Hn Hkeys. unfold _parse_FN_at_response.
  eapply bind_ok; [by apply trigger_false|]. reflexivity.
Qed.

Lemma parse_FN_no_terminator fuel q p :
  triggers q →
  fields q !! "parameter" = Some p →
  (∀ j, 10 ≤ j → p !! j ≠ Some x00) →
  _parse_FN_at_response fuel (call_store q) = OutOfFuel.
Proof.
  intros Htr Hp Hno. unfold _parse_FN_at_response.
  eapply bind_ok; [by apply trigger_true|]. cbv beta iota.
  unfold call_store.
  repeat run_step Hp.
  unfold bind at 1. by erewrite scan_no_nul.
Qed.

(** Fuel only bounds the loop: an outcome that was reached is the outcome
    for any larger fuel. *)
Lemma parse_FN_fuel_mono fuel fuel' :
  fuel ≤ fuel' →
  extends (_parse_FN_at_response fuel') (_parse_FN_at_response fuel).
Proof.
  intros Hle. unfold _parse_FN_at_response.
  apply extends_bind; [apply extends_refl|intros c].
  apply extends_if; [|apply extends_refl].
  do 4 (apply extends_bind; [apply extends_refl|intros _]).
  apply extends_bind; [by apply scan_fuel_mono|intros _].
  apply extends_refl.
Qed.

(** ** Frame: what the method leaves alone *)

Lemma preserves_ret {A} (a : A) : preserves (ret a).
Proof. by intros s. Qed.

Lemma preserves_raise {A} e : preserves (@raise A e).
Proof. by intros s. Qed.

Lemma preserves_bind {A B} (m : M A) (k : A → M B) :
  preserves m → (∀ a, preserves (k a)) → preserves (bind m k).
Proof.
  intros Hm Hk s. unfold bind. specialize (Hm s).
  destruct (m s) as [a s'| |]; [|done..].
  specialize (Hk a s'). destruct (k a s'); congruence.
Qed.

Lemma preserves_if {A} (b : bool) (m1 m2 : M A) :
  preserves m1 → preserves m2 → preserves (if b then m1 else m2).
Proof. by destruct b. Qed.

Lemma preserves_get_id : preserves get_id.
Proof. by intros s. Qed.

Lemma preserves_getitem k : preserves (getitem k).
Proof. intros s. unfold getitem. by destruct (_ !! _). Qed.

Lemma preserves_get_index : preserves get_index.
Proof. by intros s. Qed.

Lemma preserves_set_index i : preserves (set_index i).
Proof. by intros s. Qed.

Lemma preserves_get_result : preserves get_result.
Proof. by intros s. Qed.

Lemma preserves_set_result r : preserves (set_result r).
Proof. by intros s. Qed.

#[local] Hint Resolve preserves_ret preserves_raise preserves_get_id
  preserves_getitem preserves_get_index preserves_set_index
  preserves_get_result preserves_set_result : frame.
#[local] Hint Extern 2 (preserves (bind _ _)) =>
  apply preserves_bind; [|intros ?] : frame.
#[local] Hint Extern 2 (preserves (if _ then _ else _)) =>
  apply preserves_if : frame.

Lemma preserves_setitem k v : preserves (setitem k v).
Proof. unfold setitem. auto with frame. Qed.

Lemma preserves_parameter_slice a b : preserves (parameter_slice a b).
Proof. unfold parameter_slice. auto with frame. Qed.

Lemma preserves_parameter_len : preserves parameter_len.
Proof. unfold parameter_len. auto with frame. Qed.

#[local] Hint Resolve preserves_setitem preserves_parameter_slice
  preserves_parameter_len : frame.

Lemma preserves_remaining : preserves remaining.
Proof. unfold remaining. auto with frame. Qed.

Lemma preserves_trigger : preserves trigger.
Proof. unfold trigger. auto 10 with frame. Qed.

Lemma preserves_scan fuel : preserves (scan fuel).
Proof.
  induction fuel as [|fuel IH]; [done|].
  cbn [scan]. auto 10 with frame.
Qed.

#[local] Hint Resolve preserves_remaining preserves_trigger preserves_scan
  : frame.

Lemma preserves_parse_FN fuel : preserves (_parse_FN_at_response fuel).
Proof. unfold _parse_FN_at_response. auto 40 with frame. Qed.

(** ** Determinism in the argument *)

Ltac solve_agree :=
  unfold agree in *; cbn in *; intuition (first [lia | auto with lia]).

Lemma agree_weaken lv lv' s1 s2 : lv' ≤ lv → agree lv s1 s2 → agree lv' s1 s2.
Proof. solve_agree. Qed.

Lemma respects_weaken {A} lv lv' lv'' (m : M A) :
  lv'' ≤ lv' → respects lv lv' m → respects lv lv'' m.
Proof.
  intros Hle Hm s1 s2 Ha. specialize (Hm s1 s2 Ha).
  destruct (m s1), (m s2); try done;
    destruct Hm; eauto using agree_weaken.
Qed.

Lemma respects_bind {A B} lv lv' lv'' (m : M A) (k : A → M B) :
  respects lv lv' m → (∀ a, respects lv' lv'' (k a)) →
  lv'' ≤ lv' →
  respects lv lv'' (bind m k).
Proof.
  intros Hm Hk Hle s1 s2 Ha. unfold bind. specialize (Hm s1 s2 Ha).
  destruct (m s1) as [a1 s1'|e1 s1'|], (m s2) as [a2 s2'|e2 s2'|];
    try done.
  - destruct Hm as [<- Ha']. apply (Hk a1 s1' s2' Ha').
  - destruct Hm as [<- Ha']. eauto using agree_weaken.
Qed.

Lemma respects_if {A} lv lv' (b : bool) (m1 m2 : M A) :
  respects lv lv' m1 → respects lv lv' m2 →
  respects lv lv' (if b then m1 else m2).
Proof. by destruct b. Qed.

Lemma respects_ret {A} lv (a : A) : respects lv lv (ret a).
Proof. by intros s1 s2 Ha. Qed.

Lemma respects_raise {A} lv e : respects lv lv (@raise A e).
Proof. by intros s1 s2 Ha. Qed.

Lemma respects_get_id lv : respects lv lv get_id.
Proof. intros s1 s2 Ha. cbn. split; [|done]. by destruct Ha as [-> _]. Qed.

Lemma respects_getitem lv k : respects lv lv (getitem k).
Proof.
  intros s1 s2 Ha. unfold getitem. pose proof Ha as [<- _].
  by destruct (_ !! _).
Qed.

Lemma respects_get_index : respects 2 2 get_index.
Proof. intros s1 s2 Ha. cbn. split; [|done]. solve_agree. Qed.

Lemma respects_set_index lv i : 1 ≤ lv → respects lv 2 (set_index i).
Proof.
  intros Hlv s1 s2 Ha. cbn. split; [done|]. solve_agree.
Qed.

Lemma respects_get_result lv : 1 ≤ lv → respects lv lv get_result.
Proof. intros Hlv s1 s2 Ha. cbn. split; [|done]. solve_agree. Qed.

Lemma respects_set_result_0 r : respects 0 1 (set_result r).
Proof.
  intros s1 s2 Ha. cbn. split; [done|]. solve_agree.
Qed.

Lemma respects_set_result lv r : 1 ≤ lv → respects lv lv (set_result r).
Proof.
  intros Hlv s1 s2 Ha. cbn. split; [done|]. solve_agree.
Qed.

Lemma respects_setitem lv k v : 1 ≤ lv → respects lv lv (setitem k v).
Proof.
  intros Hlv. unfold setitem.
  eapply respects_bind; [by apply respects_get_result| |done].
  intros r. by apply respects_set_result.
Qed.

Lemma respects_parameter_slice lv a b : respects lv lv (parameter_slice a b).
Proof.
  unfold parameter_slice.
  eapply respects_bind; [apply respects_getitem| |done].
  intros p. apply respects_ret.
Qed.

Lemma respects_parameter_len lv : respects lv lv parameter_len.
Proof.
  unfold parameter_len.
  eapply respects_bind; [apply respects_getitem| |done].
  intros p. apply respects_ret.
Qed.

Lemma respects_assign lv k a b :
  1 ≤ lv →
  respects lv lv (let* v := parameter_slice a b in setitem k v).
Proof.
  intros Hlv.
  eapply respects_bind; [apply respects_parameter_slice| |done].
  intros v. by apply respects_setitem.
Qed.

Lemma respects_assign_at k (a b : nat → nat) :
  respects 2 2 (let* i := get_index in
                let* v := parameter_slice (a i) (b i) in setitem k v).
Proof.
  eapply respects_bind; [apply respects_get_index| |done].
  intros i. apply respects_assign; lia.
Qed.

Lemma respects_advance k :
  respects 2 2 (let* i := get_index in set_index (i + k)).
Proof.
  eapply respects_bind; [apply respects_get_index| |done].
  intros i. apply respects_set_index; lia.
Qed.

Lemma respects_remaining : respects 2 2 remaining.
Proof.
  unfold remaining.
  eapply respects_bind; [apply respects_parameter_len| |done]. intros n.
  eapply respects_bind; [apply respects_get_index| |done]. intros i.
  apply respects_ret.
Qed.

Lemma respects_trigger : respects 0 0 trigger.
Proof.
  unfold trigger.
  eapply respects_bind; [apply respects_get_id| |done]. intros i.
  apply respects_if; [|apply respects_ret].
  eapply respects_bind; [apply respects_getitem| |done]. intros c.
  apply respects_if; [|apply respects_ret].
  eapply respects_bind; [apply respects_getitem| |done]. intros st.
  apply respects_ret.
Qed.

Lemma respects_scan fuel : respects 2 2 (scan fuel).
Proof.
  induction fuel as [|fuel IH]; [by intros s1 s2 Ha|].
  cbn [scan].
  eapply respects_bind; [apply respects_get_index| |done]. intros i.
  eapply respects_bind; [apply respects_parameter_slice| |done]. intros c.
  apply respects_if; [|apply respects_ret].
  eapply respects_bind; [apply (respects_advance 1)| |done]. intros _.
  apply IH.
Qed.

Lemma respects_parse_FN fuel : respects 0 0 (_parse_FN_at_response fuel).
Proof.
  unfold _parse_FN_at_response.
  eapply respects_bind; [apply respects_trigger| |done]. intros c.
  apply respects_if; [|apply respects_ret].
  eapply respects_bind; [apply respects_set_result_0| |lia]. intros _.
  do 2 (eapply (respects_bind 1 1);
        [apply respects_assign; lia| |lia]; intros _).
  eapply (respects_bind 1 2); [apply respects_set_index; lia| |lia]. intros _.
  eapply (respects_bind 2 2); [apply respects_scan| |lia]. intros _.
  eapply (respects_bind 2 2);
    [apply (respects_assign_at _ (λ _, 10) (λ i, i))| |lia]. intros _.
  eapply (respects_bind 2 2);
    [apply (respects_assign_at _ (λ i, i + 1) (λ i, i + 3))| |lia]. intros _.
  eapply (respects_bind 2 2);
    [apply (respects_assign_at _ (λ i, i + 3) (λ i, i + 4))| |lia]. intros _.
  eapply (respects_bind 2 2);
    [apply (respects_assign_at _ (λ i, i + 4) (λ i, i + 5))| |lia]. intros _.
  eapply (respects_bind 2 2);
    [apply (respects_assign_at _ (λ i, i + 5) (λ i, i + 7))| |lia]. intros _.
  eapply (respects_bind 2 2);
    [apply (respects_assign_at _ (λ i, i + 7) (λ i, i + 9))| |lia]. intros _.
  eapply (respects_bind 2 2); [| |lia].
  { eapply respects_bind; [apply respects_remaining| |done]. intros r.
    apply respects_if.
    - eapply respects_bind;
        [apply (respects_assign_at _ (λ i, i + 9) (λ i, i + 13))| |done].
      intros _. apply respects_advance.
    - eapply respects_bind; [apply respects_remaining| |done]. intros r'.
      apply respects_if; [|apply respects_ret].
      eapply respects_bind;
        [apply (respects_assign_at _ (λ i, i + 9) (λ i, i + 13))| |done].
      intros _.
      eapply respects_bind;
        [apply (respects_assign_at _ (λ i, i + 13) (λ i, i + 14))| |done].
      intros _. apply respects_advance. }
  intros _.
  eapply respects_weaken with (lv' := 2); [lia|].
  eapply respects_bind; [apply respects_get_index| |done]. intros i.
  eapply respects_bind; [apply respects_parameter_len| |done]. intros n.
  apply respects_if.
  - eapply respects_bind; [apply respects_parameter_len| |done]. intros n'.
    eapply respects_bind; [apply respects_get_index| |done]. intros i'.
    apply respects_raise.
  - eapply respects_bind; [apply respects_get_result; lia| |done]. intros r.
    apply respects_ret.
Qed.

(** ** Encoding and splitting again *)

Lemma api_commands_splittable cmd schema :
  api_commands !! cmd = Some schema → splittable schema = true.
Proof.
  unfold api_commands. intros H.
  repeat (apply lookup_insert_Some in H as [[_ <-]|[_ H]]; [done|]).
  by rewrite lookup_empty in H.
Qed.

Lemma supplied_cons ov f fs :
  supplied ov (f :: fs) =
  match ov !! name f with
  | Some v => (name f, v) :: supplied ov fs
  | None => supplied ov fs
  end.
Proof. unfold supplied. cbn. by destruct (ov !! name f). Qed.

Lemma encode_fields_split cmd ov schema :
  splittable schema = true →
  covers ov schema →
  ∃ frame,
    encode_fields cmd ov schema = Success frame ∧
    split_fields schema frame = Success (supplied ov schema) ∧
    length (supplied ov schema) = length schema.
Proof.
  induction schema as [|f fs IH]; intros Hwf Hcov.
  { by exists []. }
  apply Forall_cons in Hcov as [Hf Hcov].
  cbn [encode_fields split_fields]. rewrite supplied_cons.
  unfold resolve_field.
  destruct (ov !! name f) as [v|] eqn:Hv; [|done].
  cbn [splittable] in Hwf.
  destruct (len f) as [n| |] eqn:Hl; [| |done].
  - destruct (IH Hwf Hcov) as (rest & He & Hs & Hlen).
    rewrite decide_True by done. rewrite He. cbn [codec_map].
    exists (v ++ rest). split; [done|].
    rewrite decide_True by (rewrite length_app; lia).
    rewrite take_app_length' by done.
    rewrite drop_app_length' by done.
    rewrite Hs. cbn. by rewrite Hlen.
  - destruct fs as [|f' fs]; [|done].
    exists (v ++ []). cbn. by rewrite app_nil_r.
Qed.

(** ** Walking a frame *)

Lemma split_fields_fixed f fs n v bs :
  len f = Fixed n → length v = n →
  split_fields (f :: fs) (v ++ bs) =
  codec_map (cons (name f, v)) (split_fields fs bs).
Proof.
  intros Hl Hv. cbn [split_fields]. rewrite Hl.
  rewrite decide_True by (rewrite length_app; lia).
  by rewrite take_app_length', drop_app_length'.
Qed.

Lemma find_nul_app v bs : x00 ∉ v → find_nul (v ++ x00 :: bs) = Some (length v).
Proof.
  induction v as [|c v IH]; intros Hv; cbn.
  - by rewrite decide_True.
  - rewrite decide_False by (intros ->; apply Hv; left).
    rewrite IH; [done|]. intros ?. apply Hv. by right.
Qed.

Lemma split_fields_null f fs v bs :
  len f = NullTerminated → x00 ∉ v →
  split_fields (f :: fs) (v ++ x00 :: bs) =
  codec_map (cons (name f, v)) (split_fields fs bs).
Proof.
  intros Hl Hv. cbn [split_fields]. rewrite Hl, find_nul_app by done.
  rewrite take_app_length.
  replace (S (length v)) with (length (v ++ [x00]))
    by (rewrite length_app; cbn; lia).
  by rewrite (cons_middle x00 v bs), app_assoc, drop_app_length.
Qed.

Lemma split_fields_rest f bs :
  len f = LenNone → split_fields [f] bs = Success [(name f, bs)].
Proof. intros Hl. cbn. by rewrite Hl. Qed.

(** ** No [None] once the branch is taken *)

Lemma never_none_bind {A B} (m : M A) (k : A → M (option B)) :
  (∀ a, never_none (k a)) → never_none (bind m k).
Proof.
  intros Hk s s'. unfold bind. destruct (m s) as [a s0| |]; [|done..].
  apply Hk.
Qed.

Lemma never_none_if {A} (b : bool) (m1 m2 : M (option A)) :
  never_none m1 → never_none m2 → never_none (if b then m1 else m2).
Proof. by destruct b. Qed.

Lemma parse_FN_triggered_not_none fuel q :
  triggers q → run fuel q ≠ Returns None.
Proof.
  intros Htr. unfold run, _parse_FN_at_response.
  unfold bind at 1. rewrite trigger_true by done.
  match goal with
  | |- observe _ (?m ?s) ≠ _ =>
      assert (never_none m) as Hm; [|specialize (Hm s)]
  end.
  { do 12 (apply never_none_bind; intros ?).
    apply never_none_bind; intros i. apply never_none_bind; intros n.
    apply never_none_if.
    - do 2 (apply never_none_bind; intros ?). by intros s s'.
    - apply never_none_bind; intros r. by intros s s'. }
  match goal with
  | |- observe _ ?o ≠ _ => destruct o as [[r|] s'| |]; [done| |done..]
  end.
  by destruct (Hm s').
Qed.

(** ** What the caller observes *)

Lemma run_body fuel q p t :
  triggers q →
  fields q !! "parameter" = Some p →
  first_nul_from 10 p t →
  t - 10 < fuel →
  run fuel q =
  if decide (length p = t + 13) then Returns (Some (nd_fields_4 p t))
  else if decide (length p = t + 14) then Returns (Some (nd_fields_5 p t))
  else if decide (length p = t + 9) then Returns (Some (nd_fields p t))
  else Raises (ValueError (length p) (t + 9)).
Proof.
  intros Htr Hp Hf Hfuel. unfold run.
  rewrite (parse_FN_body fuel q p t) by done.
  by repeat case_decide.
Qed.

(** An outcome of [run] is the outcome for the fuel the loop needs. *)
Lemma run_returns_body fuel q p t o :
  triggers q →
  fields q !! "parameter" = Some p →
  first_nul_from 10 p t →
  run fuel q = o → o ≠ NoOutcome →
  o =
  if decide (length p = t + 13) then Returns (Some (nd_fields_4 p t))
  else if decide (length p = t + 14) then Returns (Some (nd_fields_5 p t))
  else if decide (length p = t + 9) then Returns (Some (nd_fields p t))
  else Raises (ValueError (length p) (t + 9)).
Proof.
  intros Htr Hp Hf <- Hne.
  rewrite <- (run_body (fuel + S t) q p t) by (done || lia).
  unfold run in *.
  rewrite (parse_FN_fuel_mono fuel (fuel + S t)); [done|lia|].
  intros Ho. by rewrite Ho in Hne.
Qed.

Lemma nd_fields_lookup p t :
  nd_fields p t !! "source_addr" = Some (slice 0 2 p) ∧
  nd_fields p t !! "source_addr_long" = Some (slice 2 10 p) ∧
  nd_fields p t !! "node_identifier" = Some (slice 10 t p) ∧
  nd_fields p t !! "parent_address" = Some (slice (t + 1) (t + 3) p) ∧
  nd_fields p t !! "device_type" = Some (slice (t + 3) (t + 4) p) ∧
  nd_fields p t !! "status" = Some (slice (t + 4) (t + 5) p) ∧
  nd_fields p t !! "profile_id" = Some (slice (t + 5) (t + 7) p) ∧
  nd_fields p t !! "manufacturer" = Some (slice (t + 7) (t + 9) p).
Proof. unfold nd_fields. repeat split; by simplify_map_eq. Qed.

Lemma nd_fields_4_lookup p t k :
  k ≠ "device_type_id" → nd_fields_4 p t !! k = nd_fields p t !! k.
Proof. intros. unfold nd_fields_4. by rewrite lookup_insert_ne. Qed.

Lemma nd_fields_5_lookup p t k :
  k ≠ "device_type_id" → k ≠ "rssi" →
  nd_fields_5 p t !! k = nd_fields p t !! k.
Proof.
  intros. unfold nd_fields_5. rewrite lookup_insert_ne by done.
  by apply nd_fields_4_lookup.
Qed.

Lemma nd_fields_no_rssi p t : nd_fields p t !! "rssi" = None.
Proof. done. Qed.

Lemma nd_fields_4_no_rssi p t : nd_fields_4 p t !! "rssi" = None.
Proof. done. Qed.

Lemma respects_observe {A} (f : A → option (gmap string bytes)) (m : M A)
    s1 s2 :
  respects 0 0 m → packet_info s1 = packet_info s2 →
  observe f (m s1) = observe f (m s2).
Proof.
  intros Hm Hq.
  assert (agree 0 s1 s2) as Ha by (split; [done|split; intros; lia]).
  specialize (Hm s1 s2 Ha).
  destruct (m s1), (m s2); try done; by destruct Hm as [-> _].
Qed.

Lemma api_commands_names cmd schema :
  api_commands !! cmd = Some schema →
  cmd ∈ ["at"; "queued_at"; "remote_at"; "tx"].
Proof.
  unfold api_commands. intros H.
  rewrite !elem_of_cons.
  repeat (apply lookup_insert_Some in H as [[<- _]|[_ H]]; [by auto|]).
  by rewrite lookup_empty in H.
Qed.

Lemma supplied_Forall2 ov schema :
  covers ov schema →
  Forall2 (λ f nv, nv.1 = name f ∧ ov !! name f = Some nv.2)
          schema (supplied ov schema).
Proof.
  induction 1 as [|f fs Hf _ IH]; [constructor|].
  rewrite supplied_cons. destruct (ov !! name f) as [v|] eqn:Hv; [|done].
  by constructor.
Qed.

(** * Part III: the statements of the specification *)

(** C1 on the code: the docstring of the method says that a successful AT
    response for an ND command is parsed, and the guard compares the
    command with [b'fn']: a successful direct AT response to "ND", which
    meets the three conditions of the specification, is answered [None] for
    every fuel, and one to "FN", which does not meet them, is
    processed. *)
Lemma nd_command_not_processed :
  (spec_triggers nd_packet ∧ ∀ fuel, run fuel nd_packet = Returns None) ∧
  (¬ spec_triggers (fn_packet tail4) ∧
   run 20 (fn_packet tail4) =
   Returns (Some (nd_fields_4 (nd_parameter tail4) 12))).
Proof.
  split; split.
  - compute_done.
  - intros fuel. unfold run.
    rewrite parse_FN_not_triggered; [done|compute_done|].
    right. split; compute_done.
  - compute_done.
  - vm_compute. reflexivity.
Qed.

(** C2: with the terminator at [t] and [remaining = len(P) - (t + 9)]: if
    [remaining = 4] the record has a 4-byte ['device_type_id'] and no
    ['rssi']; if [remaining = 5] it has a 4-byte ['device_type_id'] and a
    1-byte ['rssi'] that is the last byte of [P]; a record with both keys
    comes from the 5-byte case only. *)
Theorem trailing_layout fuel q p t :
  triggers q →
  fields q !! "parameter" = Some p →
  first_nul_from 10 p t →
  t - 10 < fuel →
  (remaining_after p t = 4%Z →
     ∃ r d, run fuel q = Returns (Some r) ∧
            r !! "device_type_id" = Some d ∧ length d = 4 ∧
            r !! "rssi" = None) ∧
  (remaining_after p t = 5%Z →
     ∃ r d c, run fuel q = Returns (Some r) ∧
              r !! "device_type_id" = Some d ∧ length d = 4 ∧
              r !! "rssi" = Some [c] ∧ last p = Some c) ∧
  (∀ r, run fuel q = Returns (Some r) →
        is_Some (r !! "device_type_id") → is_Some (r !! "rssi") →
        remaining_after p t = 5%Z).
Proof.
  intros Htr Hp Hf Hfuel. unfold remaining_after.
  rewrite (run_body fuel q p t) by done.
  split; [|split].
  - intros H4. rewrite decide_True by lia.
    exists (nd_fields_4 p t), (slice (t + 9) (t + 13) p).
    split; [done|]. split; [done|]. split; [|done].
    rewrite slice_length. lia.
  - intros H5. rewrite decide_False, decide_True by lia.
    assert (is_Some (p !! (t + 13))) as [c Hc]
      by (apply lookup_lt_is_Some; lia).
    exists (nd_fields_5 p t), (slice (t + 9) (t + 13) p), c.
    split; [done|]. split; [done|]. split; [rewrite slice_length; lia|].
    split.
    + unfold nd_fields_5. rewrite lookup_insert_eq.
      replace (t + 14) with (t + 13 + 1) by lia.
      by rewrite slice_one, Hc.
    + rewrite last_lookup, <- Hc. f_equal. lia.
  - intros r Hr [d Hd] [c Hc].
    repeat case_decide; [| |by simplify_eq..].
    + assert (r = nd_fields_4 p t) as -> by congruence.
      by rewrite nd_fields_4_no_rssi in Hc.
    + lia.
Qed.

(** The sample payload with a 5-byte tail. *)
Lemma trailing_layout_witness :
  ∃ r d c, run 20 (fn_packet tail5) = Returns (Some r) ∧
           r !! "device_type_id" = Some d ∧ length d = 4 ∧
           r !! "rssi" = Some [c] ∧ last (nd_parameter tail5) = Some c.
Proof.
  apply (trailing_layout 20 (fn_packet tail5) (nd_parameter tail5) 12).
  - compute_done.
  - reflexivity.
  - compute_done.
  - vm_compute. lia.
  - reflexivity.
Defined.




(** C4 on the code: the ['parsing'] list written next to the description
    of type 0x97 is an entry of the outer dictionary, under the key
    ['parsing']; the description of 0x97 has none, the one of 0x88 has.
    And the method itself returns [None] for every record whose id is
    ['remote_at_response'], also for the record with the fields for which
    the direct response is processed. *)
Theorem remote_at_response_not_processed :
  assoc (KBytes [x88]) api_responses =
    Some (Response "at_response"
            [ rfield "frame_id" (Fixed 1); rfield "command" (Fixed 2);
              rfield "status" (Fixed 1); rfield "parameter" LenNone ]
            (Some [("parameter", Parse_FN_at_response)])) ∧
  assoc (KBytes [x97]) api_responses =
    Some (Response "remote_at_response"
            [ rfield "frame_id" (Fixed 1); rfield "source_addr" (Fixed 8);
              rfield "reserved" (Fixed 2); rfield "command" (Fixed 2);
              rfield "status" (Fixed 1); rfield "parameter" LenNone ]
            None) ∧
  assoc (KStr "parsing") api_responses =
    Some (Rules [("parameter", Parse_FN_at_response)]) ∧
  (∀ fuel flds, run fuel (Packet "remote_at_response" flds) = Returns None) ∧
  fields remote_fn_packet = fields (fn_packet tail4) ∧
  run 20 (fn_packet tail4) =
    Returns (Some (nd_fields_4 (nd_parameter tail4) 12)) ∧
  run 20 remote_fn_packet = Returns None.
Proof.
  split; [done|]. split; [done|]. split; [done|].
  split; [|split; [done|split; vm_compute; reflexivity]].
  intros fuel flds. unfold run.
  rewrite parse_FN_not_triggered; [done| |left; compute_done].
  intros (Hid & _). revert Hid. compute_done.
Qed.

(** A frame of type 0x97 that carries the fields of [remote_fn_packet]
    decodes to that record, with no hook to call; the frame of type 0x88
    with the same command, status and parameter comes with the hook. *)
Example decode_remote_fn_frame :
  decode ([x97] ++ [x01] ++ replicate 8 x00 ++ [xff; xfe] ++ [x46; x4e]
          ++ [x00] ++ nd_parameter tail4) =
  Success (Packet "remote_at_response"
             (<["source_addr" := replicate 8 x00]>
             (<["reserved" := [xff; xfe]]> (fields remote_fn_packet))),
           []).
Proof. vm_compute. reflexivity. Qed.

Example decode_fn_frame :
  decode ([x88] ++ [x01] ++ [x46; x4e] ++ [x00] ++ nd_parameter tail4) =
  Success (fn_packet tail4, [("parameter", Parse_FN_at_response)]).
Proof. vm_compute. reflexivity. Qed.

(** C5: a payload with the terminator at [t] is accepted when the
    remaining length is 0, 4 or 5; the entries of the record returned for
    it are the slices [P[0:2]], [P[2:10]], [P[10:t]], and from [t + 1] on
    2, 1, 1, 2 and 2 bytes, which together with the terminator make up the
    first [t + 9] bytes of [P]. *)
Theorem sub_field_offsets fuel q p t :
  triggers q →
  fields q !! "parameter" = Some p →
  first_nul_from 10 p t →
  t - 10 < fuel →
  remaining_after p t ∈ [0; 4; 5]%Z →
  ∃ r,
    run fuel q = Returns (Some r) ∧
    (r !! "source_addr" = Some (slice 0 2 p) ∧
     r !! "source_addr_long" = Some (slice 2 10 p) ∧
     r !! "node_identifier" = Some (slice 10 t p) ∧
     r !! "parent_address" = Some (slice (t + 1) (t + 3) p) ∧
     r !! "device_type" = Some (slice (t + 3) (t + 4) p) ∧
     r !! "status" = Some (slice (t + 4) (t + 5) p) ∧
     r !! "profile_id" = Some (slice (t + 5) (t + 7) p) ∧
     r !! "manufacturer" = Some (slice (t + 7) (t + 9) p)) ∧
    (length (slice 0 2 p) = 2 ∧ length (slice 2 10 p) = 8 ∧
     length (slice 10 t p) = t - 10 ∧
     length (slice (t + 1) (t + 3) p) = 2 ∧
     length (slice (t + 3) (t + 4) p) = 1 ∧
     length (slice (t + 4) (t + 5) p) = 1 ∧
     length (slice (t + 5) (t + 7) p) = 2 ∧
     length (slice (t + 7) (t + 9) p) = 2) ∧
    p = slice 0 2 p ++ slice 2 10 p ++ slice 10 t p ++ [x00]
        ++ slice (t + 1) (t + 3) p ++ slice (t + 3) (t + 4) p
        ++ slice (t + 4) (t + 5) p ++ slice (t + 5) (t + 7) p
        ++ slice (t + 7) (t + 9) p ++ drop (t + 9) p.
Proof.
  intros Htr Hp Hf Hfuel Hacc.
  pose proof (run_body fuel q p t Htr Hp Hf Hfuel) as Hr.
  pose proof Hf as (Hle & Ht & _).
  assert (t + 9 ≤ length p) as Hlen.
  { clear -Hacc. unfold remaining_after in Hacc.
    rewrite !elem_of_cons, elem_of_nil in Hacc. lia. }
  assert (∃ r, run fuel q = Returns (Some r) ∧
               ∀ k, k ≠ "device_type_id" → k ≠ "rssi" →
                    r !! k = nd_fields p t !! k) as (r & Hrun & Hk).
  { rewrite Hr. clear Hr.
    repeat case_decide; eauto using nd_fields_4_lookup, nd_fields_5_lookup.
    exfalso. clear -Hacc H H0 H1. unfold remaining_after in Hacc.
    rewrite !elem_of_cons, elem_of_nil in Hacc. lia. }
  exists r. split; [done|]. split; [|split].
  - rewrite !Hk by done. apply nd_fields_lookup.
  - clear -Hle Hlen. rewrite !slice_length. repeat split; lia.
  - clear -Hle Hlen Ht.
    assert ([x00] = slice t (t + 1) p) as ->
      by (symmetry; by apply slice_one_nul).
    rewrite !slice_app_r by lia.
    by rewrite slice_drop.
Qed.

(** The sample payload with a 4-byte tail. *)
Lemma sub_field_offsets_witness :
  ∃ r,
    run 20 (fn_packet tail4) = Returns (Some r) ∧
    (r !! "source_addr" = Some [x12; x34] ∧
     r !! "source_addr_long" =
       Some [x00; x13; xa2; x00; x40; x0a; x0b; x0c] ∧
     r !! "node_identifier" = Some [x41; x42] ∧
     r !! "parent_address" = Some [xff; xfe] ∧
     r !! "device_type" = Some [x01] ∧
     r !! "status" = Some [x00] ∧
     r !! "profile_id" = Some [xc1; x05] ∧
     r !! "manufacturer" = Some [x10; x1e]).
Proof.
  destruct (sub_field_offsets 20 (fn_packet tail4) (nd_parameter tail4) 12)
    as (r & Hrun & Hr & _).
  - compute_done.
  - reflexivity.
  - compute_done.
  - vm_compute. lia.
  - compute_done.
  - exists r. split; [exact Hrun|exact Hr].
Defined.

(** C6 on the code: the defaults of the [tx] schema are [str] literals,
    not [bytes]: the first of them already cannot be joined to the byte
    sequence, so encoding [tx] with [dest_addr] eight zero bytes and [data]
    "hi" fails at ['id'] instead of giving the sixteen bytes.  With the
    [b] prefix in front of the defaults the same encoding gives 0x10,
    0x00, eight 0x00, 0xFF, 0xFE, 0x00, 0x00, "hi". *)
Theorem encode_tx_str_defaults :
  (∃ schema,
     api_commands !! "tx" = Some schema ∧
     default <$> schema =
       [ Some (Str [x10]); Some (Str [x00]); None; Some (Str [xff; xfe]);
         Some (Str [x00]); Some (Str [x00]); None ] ∧
     encode_fields "tx" tx_overrides (with_b_prefix <$> schema) =
       Success ([x10] ++ [x00] ++ replicate 8 x00 ++ [xff; xfe] ++ [x00]
                ++ [x00] ++ [x68; x69])) ∧
  encode "tx" tx_overrides = Failure (NotBytes "id" "tx").
Proof.
  split; [|vm_compute; reflexivity].
  eexists. split; [reflexivity|]. split; vm_compute; reflexivity.
Qed.

(** C7: for every command of the registry and every override mapping that
    supplies a value of the declared length for every field, encoding
    succeeds, and splitting the frame again by the declared lengths gives
    back, field by field in schema order, the supplied values. *)
Theorem encode_resplit_roundtrip cmd schema ov :
  api_commands !! cmd = Some schema →
  covers ov schema →
  cmd ∈ ["at"; "queued_at"; "remote_at"; "tx"] ∧
  ∃ frame,
    encode cmd ov = Success frame ∧
    split_fields schema frame = Success (supplied ov schema) ∧
    Forall2 (λ f nv, nv.1 = name f ∧ ov !! name f = Some nv.2)
            schema (supplied ov schema).
Proof.
  intros Hcmd Hcov. split; [by eapply api_commands_names|].
  destruct (encode_fields_split cmd ov schema) as (frame & He & Hs & _);
    [by eapply api_commands_splittable|done|].
  exists frame. unfold encode. rewrite Hcmd.
  eauto using supplied_Forall2.
Qed.

(** [remote_at] with all seven fields supplied. *)
Lemma encode_resplit_roundtrip_witness :
  ∃ frame,
    encode "remote_at" remote_at_overrides = Success frame ∧
    split_fields
      [ Field "id" (Fixed 1) (Some (Str [x17]));
        Field "frame_id" (Fixed 1) (Some (Str [x00]));
        Field "dest_addr_long" (Fixed 8) None;
        Field "reserved" (Fixed 2) (Some (Str [xff; xfe]));
        Field "options" (Fixed 1) (Some (Str [x02]));
        Field "command" (Fixed 2) None;
        Field "parameter" LenNone None ] frame =
    Success
      [ ("id", [x17]); ("frame_id", [x05]);
        ("dest_addr_long", [x00; x13; xa2; x00; x40; x0a; x0b; x0c]);
        ("reserved", [xff; xfe]); ("options", [x02]);
        ("command", [x46; x4e]); ("parameter", [x01; x02; x03]) ].
Proof.
  destruct (encode_resplit_roundtrip "remote_at"
    [ Field "id" (Fixed 1) (Some (Str [x17]));
      Field "frame_id" (Fixed 1) (Some (Str [x00]));
      Field "dest_addr_long" (Fixed 8) None;
      Field "reserved" (Fixed 2) (Some (Str [xff; xfe]));
      Field "options" (Fixed 1) (Some (Str [x02]));
      Field "command" (Fixed 2) None;
      Field "parameter" LenNone None ] remote_at_overrides)
    as (_ & frame & He & Hs & _).
  - reflexivity.
  - compute_done.
  - exists frame. split; [exact He|]. rewrite Hs. vm_compute. reflexivity.
Defined.

(** C8: a frame of type 0x95 whose identifier starts with its terminator
    decodes, with an empty ['node_id'] and no hook to call; the two bytes
    after the terminator are ['parent'], and the terminator is in no
    field: the fields together are the payload without it. *)
Theorem decode_node_id_empty (a n o s l parent rest : bytes) :
  length a = 8 → length n = 2 → length o = 1 → length s = 2 →
  length l = 8 → length parent = 2 →
  let payload := a ++ n ++ o ++ s ++ l ++ x00 :: parent ++ rest in
  let walk := [ ("source_addr_long", a); ("network_addr", n);
                ("options", o); ("source_addr", s);
                ("network_addr_long", l); ("node_id", []);
                ("parent", parent); ("unknown", rest) ] in
  decode (x95 :: payload) =
    Success (Packet "node_id" (list_to_map walk), []) ∧
  (list_to_map walk : gmap string bytes) !! "node_id" = Some [] ∧
  (list_to_map walk : gmap string bytes) !! "parent" = Some parent ∧
  joined walk = a ++ n ++ o ++ s ++ l ++ parent ++ rest ∧
  length payload = length (joined walk) + 1.
Proof.
  intros Ha Hn Ho Hs Hl Hp payload walk.
  split; [|split; [done|split; [done|split]]].
  - unfold decode, payload.
    change (assoc (KBytes [x95]) api_responses) with
      (Some (Response "node_id"
         [ rfield "source_addr_long" (Fixed 8);
           rfield "network_addr" (Fixed 2);
           rfield "options" (Fixed 1);
           rfield "source_addr" (Fixed 2);
           rfield "network_addr_long" (Fixed 8);
           rfield "node_id" NullTerminated;
           rfield "parent" (Fixed 2);
           rfield "unknown" LenNone ] None)).
    cbv beta iota.
    do 5 (erewrite split_fields_fixed; [|reflexivity|done]).
    rewrite (split_fields_null _ _ [] (parent ++ rest));
      [|reflexivity|apply not_elem_of_nil].
    erewrite split_fields_fixed; [|reflexivity|done].
    rewrite split_fields_rest by reflexivity.
    reflexivity.
  - unfold joined, walk. cbn. by rewrite app_nil_r.
  - unfold joined, walk, payload. cbn.
    rewrite !length_app. cbn. rewrite !length_app. lia.
Qed.

(** A 24-byte frame of type 0x95 with an empty identifier. *)
Lemma decode_node_id_empty_witness :
  decode (x95 :: replicate 8 x11 ++ [x22; x22] ++ [x01] ++ [x33; x33]
              ++ replicate 8 x44 ++ x00 :: [xff; xfe] ++ [x55]) =
  Success (Packet "node_id" (list_to_map
    [ ("source_addr_long", replicate 8 x11); ("network_addr", [x22; x22]);
      ("options", [x01]); ("source_addr", [x33; x33]);
      ("network_addr_long", replicate 8 x44); ("node_id", []);
      ("parent", [xff; xfe]); ("unknown", [x55]) ]), []).
Proof.
  apply (decode_node_id_empty (replicate 8 x11) [x22; x22] [x01] [x33; x33]
           (replicate 8 x44) [xff; xfe] [x55]); reflexivity.
Defined.

(** C9: whatever the tables and the locals are when it starts, the method
    ends with the caller's dictionary and both tables as it found them,
    and its value or exception is the same from any other store that
    holds the same dictionary. *)
Theorem parse_FN_pure fuel q cmds resps r i :
  match _parse_FN_at_response fuel (Store q cmds resps r i) with
  | Ok _ s' | Raised _ s' =>
      packet_info s' = q ∧
      cls_api_commands s' = cmds ∧
      cls_api_responses s' = resps
  | OutOfFuel => True
  end ∧
  ∀ cmds' resps' r' i',
    observe (λ v, v) (_parse_FN_at_response fuel (Store q cmds' resps' r' i')) =
    observe (λ v, v) (_parse_FN_at_response fuel (Store q cmds resps r i)).
Proof.
  split.
  - pose proof (preserves_parse_FN fuel (Store q cmds resps r i)) as H.
    destruct (_parse_FN_at_response _ _) as [v s'|e s'|]; [| |done];
      unfold visible in H; cbn in H; by simplify_eq.
  - intros cmds' resps' r' i'.
    by apply respects_observe; [apply respects_parse_FN|].
Qed.

(** C10: when the payload of a triggering record has no zero byte at any
    index from 10 on, the method has no outcome for any amount of fuel: it
    neither returns nor raises. *)
Theorem no_terminator_no_outcome fuel q p :
  triggers q →
  fields q !! "parameter" = Some p →
  x00 ∉ drop 10 p →
  _parse_FN_at_response fuel (call_store q) = OutOfFuel ∧
  run fuel q = NoOutcome.
Proof.
  intros Htr Hp Hno.
  assert (_parse_FN_at_response fuel (call_store q) = OutOfFuel) as H.
  { apply (parse_FN_no_terminator fuel q p); [done|done|].
    by apply elem_of_drop_lookup. }
  split; [done|]. unfold run. by rewrite H.
Qed.

(** A 13-byte payload without a zero byte after the addresses. *)
Lemma no_terminator_no_outcome_witness :
  _parse_FN_at_response 1000 (call_store unterminated_packet) = OutOfFuel ∧
  run 1000 unterminated_packet = NoOutcome.
Proof.
  apply (no_terminator_no_outcome 1000 unterminated_packet
           unterminated_parameter).
  - compute_done.
  - reflexivity.
  - compute_done.
Defined.

(** * Part IV: further properties of the method and the tables *)

(** ** The condition, case by case *)

Lemma trigger_eval s :
  trigger s =
  match guard (packet_info s) with
  | inr b => Ok b s
  | inl e => Raised e s
  end.
Proof.
  unfold trigger, guard, guard_names, bind, get_id, getitem, ret.
  case_bool_decide as Hid.
  - rewrite decide_True by done.
    destruct (fields (packet_info s) !! "command") as [c|]; [|done].
    case_bool_decide as Hc.
    + rewrite decide_True by done.
      by destruct (fields (packet_info s) !! "status").
    + by rewrite decide_False.
  - by rewrite decide_False.
Qed.

Lemma guard_true_triggers q : guard q = inr true ↔ triggers q.
Proof.
  unfold guard, guard_names, triggers.
  destruct (decide (id q ∈ _)) as [Hid|Hid];
    [|split; [done|by intros (? & _)]].
  destruct (fields q !! "command") as [c|]; cbn;
    [|split; [done|by intros (_ & ? & _)]].
  destruct (decide (lower c = b_fn)) as [Hc|Hc];
    [|split; [done|intros (_ & ? & _); congruence]].
  destruct (fields q !! "status") as [st|];
    [|split; [done|by intros (_ & _ & ?)]].
  case_bool_decide as Hst.
  - split; [intros _|done]. repeat split; congruence.
  - split; [done|intros (_ & _ & ?); congruence].
Qed.

Lemma guard_error q e : guard q = inl e → ∃ k, e = KeyError k.
Proof.
  unfold guard. intros Hg.
  destruct (decide (id q ∈ guard_names)); [|done].
  destruct (fields q !! "command") as [c|]; [|simplify_eq; eauto].
  destruct (decide (lower c = b_fn)); [|done].
  destruct (fields q !! "status"); [done|simplify_eq; eauto].
Qed.

Lemma parse_FN_guard_false fuel q :
  guard q = inr false →
  _parse_FN_at_response fuel (call_store q) = Ok None (call_store q).
Proof.
  intros Hg. unfold _parse_FN_at_response.
  eapply bind_ok; [rewrite trigger_eval; cbn; by rewrite Hg|]. reflexivity.
Qed.

Lemma parse_FN_guard_error fuel q e :
  guard q = inl e →
  _parse_FN_at_response fuel (call_store q) = Raised e (call_store q).
Proof.
  intros Hg. unfold _parse_FN_at_response, bind.
  rewrite trigger_eval. cbn. by rewrite Hg.
Qed.

Lemma parse_FN_no_parameter fuel q :
  triggers q →
  fields q !! "parameter" = None →
  run fuel q = Raises (KeyError "parameter").
Proof.
  intros Htr Hp. unfold run, _parse_FN_at_response.
  erewrite bind_ok; [|by apply trigger_true|reflexivity]. cbv beta iota.
  unfold bind, set_result, parameter_slice, bind, getitem. cbn.
  by rewrite Hp.
Qed.

(** ** The loop, case by case *)

Lemma first_nul_from_here i (p : bytes) : p !! i = Some x00 → first_nul_from i p i.
Proof.
  intros Hi. split; [done|]. split; [done|].
  unfold slice. rewrite Nat.sub_diag. cbn. apply not_elem_of_nil.
Qed.

Lemma first_nul_from_back i p t :
  p !! i ≠ Some x00 → first_nul_from (S i) p t → first_nul_from i p t.
Proof.
  intros Hi (Hle & Ht & Hn). split; [lia|]. split; [done|].
  intros Hin. apply list_elem_of_lookup in Hin as [k Hk].
  unfold slice in Hk. apply lookup_take_Some in Hk as [Hk Hlt].
  rewrite lookup_drop in Hk.
  destruct k as [|k]; [by rewrite Nat.add_0_r in Hk|].
  apply Hn, list_elem_of_lookup. exists k.
  unfold slice. rewrite lookup_take_lt by lia.
  rewrite lookup_drop. by replace (S i + k) with (i + S k) by lia.
Qed.

(** With the parameter present the loop never raises: it stops at the first
    zero byte at or after its start if the fuel reaches it, and otherwise
    uses the fuel up. *)
Lemma scan_cases p : ∀ fuel s,
  fields (packet_info s) !! "parameter" = Some p →
  (∃ t, first_nul_from (null_terminator_index s) p t ∧
        t - null_terminator_index s < fuel ∧
        scan fuel s = Ok tt (with_index t s)) ∨
  ((∀ t, first_nul_from (null_terminator_index s) p t →
         fuel ≤ t - null_terminator_index s) ∧
   scan fuel s = OutOfFuel).
Proof.
  induction fuel as [|fuel IH]; intros s Hp.
  { right. split; [intros; lia|done]. }
  destruct (decide (p !! null_terminator_index s = Some x00)) as [Hz|Hz].
  { left. exists (null_terminator_index s).
    pose proof (first_nul_from_here _ _ Hz) as Hf.
    split; [done|]. split; [lia|]. apply (scan_finds p); [done|done|lia]. }
  destruct (IH (with_index (S (null_terminator_index s)) s) Hp)
    as [(t & Hf & Hfuel & _)|[Hall Hout]];
    cbn [null_terminator_index with_index] in *.
  - left. exists t. pose proof (first_nul_from_back _ _ _ Hz Hf) as Hf'.
    split; [done|]. split; [lia|]. apply (scan_finds p); [done|done|lia].
  - right. split.
    + intros t Hf. pose proof (first_nul_from_step _ _ _ Hf Hz) as Hf'.
      specialize (Hall t Hf'). destruct Hf' as [? _]. lia.
    + cbn [scan]. unfold bind at 1. unfold get_index at 1.
      unfold bind at 1. rewrite (parameter_slice_ok _ _ Hp).
      rewrite bool_decide_true by (by rewrite slice_one_nul).
      unfold bind, get_index, set_index. by rewrite Nat.add_1_r, Hout.
Qed.

(** ** The method on a triggering record, case by case *)

Lemma run_triggered_cases fuel q p :
  triggers q →
  fields q !! "parameter" = Some p →
  (∃ t, first_nul_from 10 p t ∧ t - 10 < fuel) ∨
  ((∀ t, first_nul_from 10 p t → fuel ≤ t - 10) ∧ run fuel q = NoOutcome).
Proof.
  intros Htr Hp.
  set (s0 := Store q api_commands api_responses
               (<["source_addr_long" := slice 2 10 p]>
                  (<["source_addr" := slice 0 2 p]> ∅)) 10).
  destruct (scan_cases p fuel s0 Hp) as [(t & Hf & Hfuel & _)|[Hall Hout]].
  { left. by exists t. }
  right. split; [done|].
  unfold run, _parse_FN_at_response.
  erewrite bind_ok; [|by apply trigger_true|reflexivity]. cbv beta iota.
  unfold call_store.
  erewrite bind_ok; [|reflexivity|reflexivity].
  erewrite bind_ok;
    [|eapply bind_ok; [by apply parameter_slice_ok|reflexivity]|reflexivity].
  erewrite bind_ok;
    [|eapply bind_ok; [by apply parameter_slice_ok|reflexivity]|reflexivity].
  erewrite bind_ok; [|reflexivity|reflexivity].
  unfold bind at 1.
  change (scan fuel _) with (scan fuel s0). by rewrite Hout.
Qed.

Lemma run_guard_cases fuel q :
  match guard q with
  | inl e => run fuel q = Raises e
  | inr false => run fuel q = Returns None
  | inr true =>
      triggers q ∧
      match fields q !! "parameter" with
      | None => run fuel q = Raises (KeyError "parameter")
      | Some p =>
          (∃ t, first_nul_from 10 p t ∧ t - 10 < fuel ∧
                run fuel q =
                if decide (length p = t + 13)
                then Returns (Some (nd_fields_4 p t))
                else if decide (length p = t + 14)
                then Returns (Some (nd_fields_5 p t))
                else if decide (length p = t + 9)
                then Returns (Some (nd_fields p t))
                else Raises (ValueError (length p) (t + 9))) ∨
          ((∀ t, first_nul_from 10 p t → fuel ≤ t - 10) ∧
           run fuel q = NoOutcome)
      end
  end.
Proof.
  destruct (guard q) as [e|[]] eqn:Hg.
  - unfold run. by rewrite (parse_FN_guard_error fuel q e).
  - apply guard_true_triggers in Hg. split; [done|].
    destruct (fields q !! "parameter") as [p|] eqn:Hp.
    + destruct (run_triggered_cases fuel q p Hg Hp) as [(t & Hf & Hfuel)|H];
        [left|by right].
      exists t. split; [done|]. split; [done|]. by apply run_body.
    + by apply parse_FN_no_parameter.
  - unfold run. by rewrite parse_FN_guard_false.
Qed.

(** X1: the method answers [None] exactly when the id is neither of the
    two names, or the command is there and is not "FN" in any case, or the
    command and the status are there and the status is not the zero byte.
    Nothing else of the record is looked at: neither a missing status nor a
    missing parameter raises then. *)
Theorem returns_none_iff fuel q :
  run fuel q = Returns None ↔
  id q ∉ guard_names ∨
  ∃ c, fields q !! "command" = Some c ∧
       (lower c ≠ b_fn ∨
        ∃ st, fields q !! "status" = Some st ∧ st ≠ b_nul).
Proof.
  pose proof (run_guard_cases fuel q) as Hrun.
  unfold guard in Hrun.
  destruct (decide (id q ∈ guard_names)) as [Hid|Hid];
    [|split; [by left|done]].
  destruct (fields q !! "command") as [c|] eqn:Hc.
  2:{ rewrite Hrun. split; [done|]. intros [?|(c & ? & _)]; done. }
  destruct (decide (lower c = b_fn)) as [Hl|Hl].
  2:{ split; [|done]. intros _. right. exists c. auto. }
  destruct (fields q !! "status") as [st|] eqn:Hst.
  2:{ rewrite Hrun. split; [done|].
      intros [?|(c' & ? & [?|(st & ? & _)])]; [done|congruence|done]. }
  case_bool_decide as Hnul.
  - destruct Hrun as [_ Hrun]. split.
    + intros Hnone. rewrite Hnone in Hrun.
      destruct (fields q !! "parameter") as [p|]; [|done].
      destruct Hrun as [(t & _ & _ & Hrun)|[_ ?]]; [|done].
      repeat case_decide; done.
    + intros [?|(c' & ? & [?|(st' & ? & ?)])]; [done|congruence..].
  - split; [|done]. intros _. right. exists c. split; [done|].
    right. by exists st.
Qed.

(** On a record that has its id, a [KeyError] comes from one of three
    keys. *)
Lemma key_error_with_id fuel q k :
  run fuel q = Raises (KeyError k) ↔
  (k = "command" ∧ id q ∈ guard_names ∧ fields q !! "command" = None) ∨
  (k = "status" ∧ id q ∈ guard_names ∧
   lower <$> fields q !! "command" = Some b_fn ∧
   fields q !! "status" = None) ∨
  (k = "parameter" ∧ triggers q ∧ fields q !! "parameter" = None).
Proof.
  split.
  - intros Hrun. pose proof (run_guard_cases fuel q) as Hc.
    destruct (guard q) as [e|[]] eqn:Hg.
    + rewrite Hc in Hrun. unfold guard in Hg.
      destruct (decide (id q ∈ guard_names)) as [Hid|]; [|done].
      destruct (fields q !! "command") as [c|] eqn:Hcmd;
        [|simplify_eq; by left].
      destruct (decide (lower c = b_fn)) as [Hl|]; [|done].
      destruct (fields q !! "status") as [st|] eqn:Hst; [done|].
      simplify_eq. right. left. cbn. by rewrite Hl.
    + destruct Hc as [Htrig Hc]. right. right.
      destruct (fields q !! "parameter") as [p|] eqn:Hp.
      * destruct Hc as [(t & _ & _ & Hc)|[_ Hc]];
          rewrite Hc in Hrun; [|done].
        repeat case_decide; done.
      * rewrite Hc in Hrun. by simplify_eq.
    + by rewrite Hc in Hrun.
  - intros [(-> & Hid & Hcmd)|[(-> & Hid & Hcmd & Hst)|(-> & Htr & Hp)]].
    + unfold run. rewrite (parse_FN_guard_error fuel q (KeyError "command"));
        [done|].
      unfold guard. by rewrite decide_True, Hcmd.
    + unfold run. rewrite (parse_FN_guard_error fuel q (KeyError "status"));
        [done|].
      unfold guard. rewrite decide_True by done.
      destruct (fields q !! "command") as [c|]; [|done].
      rewrite decide_True by (by simplify_eq/=). by rewrite Hst.
    + by apply parse_FN_no_parameter.
Qed.

(** X2: on any dictionary, a [KeyError] is raised for exactly four keys:
    ['id'], when the dictionary has no id; ['command'], when the id is one
    of the two names and there is no command; ['status'], when moreover the
    command is "FN" and there is no status; ['parameter'], when the
    condition holds and there is no parameter. *)
Theorem key_error_cases fuel d k :
  run_on fuel d = Raises (KeyError k) ↔
  (k = "id" ∧ d_id d = None) ∨
  ∃ i, d_id d = Some i ∧
       ((k = "command" ∧ i ∈ guard_names ∧ d_fields d !! "command" = None) ∨
        (k = "status" ∧ i ∈ guard_names ∧
         lower <$> d_fields d !! "command" = Some b_fn ∧
         d_fields d !! "status" = None) ∨
        (k = "parameter" ∧ triggers (Packet i (d_fields d)) ∧
         d_fields d !! "parameter" = None)).
Proof.
  unfold run_on. destruct (d_id d) as [i|].
  - rewrite key_error_with_id. cbn. split.
    + intros H. right. by exists i.
    + intros [[_ ?]|(i' & ? & H)]; [done|]. by simplify_eq.
  - split.
    + intros [= <-]. by left.
    + intros [[-> _]|(i & ? & _)]; done.
Qed.

(** X3: a [ValueError] is raised exactly when the condition holds, the
    parameter has its first zero byte from index 10 at some [t] within the
    fuel, and its length is none of [t + 9], [t + 13], [t + 14]; it reports
    the length as expected and [t + 9] as read, so the two numbers always
    differ and the second is at least 19. *)
Theorem value_error_iff fuel q e a :
  run fuel q = Raises (ValueError e a) ↔
  triggers q ∧
  ∃ p t, fields q !! "parameter" = Some p ∧
         first_nul_from 10 p t ∧ t - 10 < fuel ∧
         e = length p ∧ a = t + 9 ∧ 19 ≤ a ∧
         e ≠ a ∧ e ≠ a + 4 ∧ e ≠ a + 5.
Proof.
  split.
  - intros Hrun. pose proof (run_guard_cases fuel q) as Hc.
    destruct (guard q) as [e'|[]] eqn:Hg.
    + rewrite Hc in Hrun. apply guard_error in Hg as [k ->]. done.
    + destruct Hc as [Htrig Hc]. split; [done|].
      destruct (fields q !! "parameter") as [p|] eqn:Hp;
        [|by rewrite Hc in Hrun].
      destruct Hc as [(t & Hf & Hfuel & Hc)|[_ Hc]];
        [|by rewrite Hc in Hrun].
      rewrite Hc in Hrun. exists p, t.
      pose proof Hf as [Hle _]. clear Hc Hg.
      repeat case_decide; simplify_eq.
      split; [done|]. split; [done|]. split; [done|].
      clear -Hle H H0 H1. repeat split; lia.
    + by rewrite Hc in Hrun.
  - intros (Htr & p & t & Hp & Hf & Hfuel & -> & -> & _ & H0 & H4 & H5).
    rewrite (run_body fuel q p t) by done.
    by rewrite !decide_False by lia.
Qed.

Lemma returns_record_inv fuel q r :
  run fuel q = Returns (Some r) →
  triggers q ∧
  ∃ p t, fields q !! "parameter" = Some p ∧
         first_nul_from 10 p t ∧ t - 10 < fuel ∧
         ((length p = t + 9 ∧ r = nd_fields p t) ∨
          (length p = t + 13 ∧ r = nd_fields_4 p t) ∨
          (length p = t + 14 ∧ r = nd_fields_5 p t)).
Proof.
  intros Hrun. pose proof (run_guard_cases fuel q) as Hc.
  destruct (guard q) as [e'|[]] eqn:Hg; [by rewrite Hc in Hrun| |
    by rewrite Hc in Hrun].
  destruct Hc as [Htrig Hc]. split; [done|].
  destruct (fields q !! "parameter") as [p|] eqn:Hp;
    [|by rewrite Hc in Hrun].
  destruct Hc as [(t & Hf & Hfuel & Hc)|[_ Hc]];
    [|by rewrite Hc in Hrun].
  rewrite Hc in Hrun. exists p, t. clear Hc Hg.
  repeat case_decide; simplify_eq; auto 10.
Qed.

(** X4: a record is returned exactly when the condition holds, the
    parameter has its first zero byte from index 10 at some [t] within the
    fuel, and its length is [t + 9], [t + 13] or [t + 14]; the record is
    then the one of 8, 9 or 10 entries for that length. *)
Theorem returns_record_iff fuel q r :
  run fuel q = Returns (Some r) ↔
  triggers q ∧
  ∃ p t, fields q !! "parameter" = Some p ∧
         first_nul_from 10 p t ∧ t - 10 < fuel ∧
         ((length p = t + 9 ∧ r = nd_fields p t) ∨
          (length p = t + 13 ∧ r = nd_fields_4 p t) ∨
          (length p = t + 14 ∧ r = nd_fields_5 p t)).
Proof.
  split; [apply returns_record_inv|].
  intros (Htr & p & t & Hp & Hf & Hfuel & Hcases).
  rewrite (run_body fuel q p t) by done.
  destruct Hcases as [[Hl ->]|[[Hl ->]|[Hl ->]]].
  - by rewrite !decide_False, decide_True by lia.
  - by rewrite decide_True by lia.
  - by rewrite decide_False, decide_True by lia.
Qed.

(** ** Records and payloads *)

Lemma entry_lookup (r : gmap string bytes) k v : r !! k = Some v → entry r k = v.
Proof. unfold entry. by intros ->. Qed.

Lemma entry_none (r : gmap string bytes) k : r !! k = None → entry r k = [].
Proof. unfold entry. by intros ->. Qed.

Lemma nd_fields_4_entry p t k :
  k ≠ "device_type_id" → k ≠ "rssi" →
  entry (nd_fields_4 p t) k = entry (nd_fields p t) k.
Proof. intros. unfold entry. by rewrite nd_fields_4_lookup. Qed.

Lemma nd_fields_5_entry p t k :
  k ≠ "device_type_id" → k ≠ "rssi" →
  entry (nd_fields_5 p t) k = entry (nd_fields p t) k.
Proof. intros. unfold entry. by rewrite nd_fields_5_lookup. Qed.

Lemma layout_base p t r :
  (∀ k, k ≠ "device_type_id" → k ≠ "rssi" →
        entry r k = entry (nd_fields p t) k) →
  10 ≤ t → p !! t = Some x00 → t + 9 ≤ length p →
  layout r =
  slice 0 (t + 9) p ++ entry r "device_type_id" ++ entry r "rssi".
Proof.
  intros Hk Hle Ht Hlen. unfold layout.
  rewrite !Hk by done.
  destruct (nd_fields_lookup p t) as (H1 & H2 & H3 & H4 & H5 & H6 & H7 & H8).
  rewrite (entry_lookup _ _ _ H1), (entry_lookup _ _ _ H2),
    (entry_lookup _ _ _ H3), (entry_lookup _ _ _ H4),
    (entry_lookup _ _ _ H5), (entry_lookup _ _ _ H6),
    (entry_lookup _ _ _ H7), (entry_lookup _ _ _ H8).
  clear H1 H2 H3 H4 H5 H6 H7 H8 Hk.
  assert ([x00] = slice t (t + 1) p) as ->
    by (symmetry; by apply slice_one_nul).
  by rewrite !slice_app_r by lia.
Qed.

Lemma slice_to_end a b (s : bytes) : length s ≤ b → slice a b s = drop a s.
Proof.
  intros. unfold slice. apply take_ge. rewrite length_drop. lia.
Qed.

Lemma layout_nd_fields p t :
  first_nul_from 10 p t →
  (length p = t + 9 → layout (nd_fields p t) = p) ∧
  (length p = t + 13 → layout (nd_fields_4 p t) = p) ∧
  (length p = t + 14 → layout (nd_fields_5 p t) = p).
Proof.
  intros (Hle & Ht & _).
  split; [|split]; intros Hl.
  - rewrite (layout_base p t (nd_fields p t)) by (done || lia).
    rewrite !entry_none by done. rewrite !app_nil_r.
    rewrite <- (slice_drop (t + 9) p) at 2.
    rewrite (drop_ge p) by lia. by rewrite app_nil_r.
  - rewrite (layout_base p t (nd_fields_4 p t));
      [|intros; by apply nd_fields_4_entry|done|done|lia].
    rewrite (entry_lookup _ "device_type_id" (slice (t + 9) (t + 13) p))
      by done.
    rewrite (entry_none _ "rssi") by done.
    rewrite app_nil_r, slice_app by lia.
    rewrite slice_to_end by lia. by rewrite drop_0.
  - rewrite (layout_base p t (nd_fields_5 p t));
      [|intros; by apply nd_fields_5_entry|done|done|lia].
    rewrite (entry_lookup _ "device_type_id" (slice (t + 9) (t + 13) p))
      by done.
    rewrite (entry_lookup _ "rssi" (slice (t + 13) (t + 14) p)) by done.
    rewrite !slice_app_r, slice_app by lia.
    rewrite slice_to_end by lia. by rewrite drop_0.
Qed.

Lemma node_identifier_entry p t :
  entry (nd_fields p t) "node_identifier" = slice 10 t p ∧
  entry (nd_fields_4 p t) "node_identifier" = slice 10 t p ∧
  entry (nd_fields_5 p t) "node_identifier" = slice 10 t p.
Proof.
  destruct (nd_fields_lookup p t) as (_ & _ & H3 & _).
  rewrite nd_fields_4_entry, nd_fields_5_entry by done.
  by rewrite (entry_lookup _ _ _ H3).
Qed.

(** X5: whatever record the method returns, its entries put back in the
    order of the payload, with one zero byte after the identifier, are the
    parameter byte for byte; the parameter has at least 19 bytes and the
    identifier holds no zero byte. *)
Theorem returned_record_reassembles fuel q p r :
  fields q !! "parameter" = Some p →
  run fuel q = Returns (Some r) →
  layout r = p ∧ 19 ≤ length p ∧ x00 ∉ entry r "node_identifier".
Proof.
  intros Hp Hrun.
  apply returns_record_inv in Hrun
    as (_ & p' & t & Hp' & Hf & _ & Hcases).
  assert (p' = p) as -> by congruence. clear Hp Hp'.
  pose proof Hf as (Hle & _ & Hni).
  destruct (layout_nd_fields p t Hf) as (L0 & L4 & L5).
  destruct (node_identifier_entry p t) as (N0 & N4 & N5).
  destruct Hcases as [[Hl ->]|[[Hl ->]|[Hl ->]]].
  - rewrite N0. split; [auto|]. split; [lia|done].
  - rewrite N4. split; [auto|]. split; [lia|done].
  - rewrite N5. split; [auto|]. split; [lia|done].
Qed.

Lemma returned_record_reassembles_witness :
  layout (nd_fields_5 (nd_parameter tail5) 12) = nd_parameter tail5 ∧
  19 ≤ length (nd_parameter tail5) ∧
  x00 ∉ entry (nd_fields_5 (nd_parameter tail5) 12) "node_identifier".
Proof.
  apply (returned_record_reassembles 20 (fn_packet tail5)).
  - reflexivity.
  - vm_compute. reflexivity.
Defined.

Lemma dom_nd_fields p t : dom (nd_fields p t) = base_keys.
Proof. unfold nd_fields. rewrite !dom_insert_L, dom_empty_L. compute_done. Qed.

(** X6: a returned record has the eight base keys and no others when the
    parameter ends after the eight fixed bytes, ['device_type_id'] besides
    when four bytes follow, and ['device_type_id'] and ['rssi'] besides
    when five bytes follow: 8, 9 or 10 keys. *)
Theorem returned_record_keys fuel q p t r :
  fields q !! "parameter" = Some p →
  first_nul_from 10 p t →
  run fuel q = Returns (Some r) →
  (length p = t + 9 ∧ dom r = base_keys ∧ size r = 8) ∨
  (length p = t + 13 ∧
   dom r = base_keys ∪ {[ "device_type_id" ]} ∧ size r = 9) ∨
  (length p = t + 14 ∧
   dom r = base_keys ∪ {[ "device_type_id"; "rssi" ]} ∧ size r = 10).
Proof.
  intros Hp Hf Hrun.
  apply returns_record_inv in Hrun
    as (Htr & p' & t' & Hp' & Hf' & Hfuel & Hcases).
  assert (p' = p) as -> by congruence.
  assert (t' = t) as -> by (by eapply first_nul_from_unique).
  destruct Hcases as [[Hl ->]|[[Hl ->]|[Hl ->]]].
  - left. split; [done|]. rewrite <- size_dom, dom_nd_fields.
    split; compute_done.
  - right. left. split; [done|].
    rewrite <- size_dom. unfold nd_fields_4.
    rewrite dom_insert_L, dom_nd_fields. split; compute_done.
  - right. right. split; [done|].
    rewrite <- size_dom. unfold nd_fields_5, nd_fields_4.
    rewrite !dom_insert_L, dom_nd_fields. split; compute_done.
Qed.

Lemma returned_record_keys_witness :
  dom (nd_fields_4 (nd_parameter tail4) 12) =
    base_keys ∪ {[ "device_type_id" ]} ∧
  size (nd_fields_4 (nd_parameter tail4) 12) = 9.
Proof.
  destruct (returned_record_keys 20 (fn_packet tail4) (nd_parameter tail4) 12
              (nd_fields_4 (nd_parameter tail4) 12))
    as [(Hl & _)|[(_ & H)|(Hl & _)]].
  - reflexivity.
  - compute_done.
  - vm_compute. reflexivity.
  - vm_compute in Hl. discriminate Hl.
  - exact H.
  - vm_compute in Hl. discriminate Hl.
Defined.

(** ** From the parts of a payload to the record *)

Lemma slice_parts (a b c p : bytes) i j :
  p = a ++ b ++ c → i = length a → j = i + length b → slice i j p = b.
Proof.
  intros -> -> ->. unfold slice.
  rewrite drop_app_length. replace (length a + length b - length a)
    with (length b) by lia.
  by rewrite take_app_length.
Qed.

Lemma nd_payload_terminator sa sal ni parent dt st pid man tail :
  length sa = 2 → length sal = 8 → x00 ∉ ni →
  first_nul_from 10 (nd_payload sa sal ni parent dt st pid man tail)
    (10 + length ni).
Proof.
  intros Hsa Hsal Hni. split; [lia|]. split.
  - unfold nd_payload.
    replace (10 + length ni) with (length (sa ++ sal ++ ni))
      by (rewrite !length_app; lia).
    rewrite !(app_assoc sa), !(app_assoc (sa ++ sal)).
    apply list_lookup_middle. done.
  - rewrite (slice_parts (sa ++ sal) ni
               ([x00] ++ parent ++ dt ++ st ++ pid ++ man ++ tail));
      [done|unfold nd_payload; by rewrite <- !app_assoc
      |rewrite length_app; lia|lia].
Qed.

Lemma nd_payload_fields sa sal ni parent dt st pid man tail :
  length sa = 2 → length sal = 8 → length parent = 2 → length dt = 1 →
  length st = 1 → length pid = 2 → length man = 2 →
  let p := nd_payload sa sal ni parent dt st pid man tail in
  let t := 10 + length ni in
  nd_fields p t = nd_record sa sal ni parent dt st pid man ∧
  drop (t + 9) p = tail ∧
  length p = t + 9 + length tail.
Proof.
  intros Hsa Hsal Hpar Hdt Hst Hpid Hman p t.
  assert (slice 0 2 p = sa) as E1.
  { apply (slice_parts [] sa (sal ++ ni ++ [x00] ++ parent ++ dt ++ st
                              ++ pid ++ man ++ tail)); [done|done|lia]. }
  assert (slice 2 10 p = sal) as E2.
  { apply (slice_parts sa sal (ni ++ [x00] ++ parent ++ dt ++ st
                               ++ pid ++ man ++ tail)); [done|lia|lia]. }
  assert (slice 10 t p = ni) as E3.
  { apply (slice_parts (sa ++ sal) ni ([x00] ++ parent ++ dt ++ st
                                       ++ pid ++ man ++ tail));
      [unfold p, nd_payload; by rewrite <- !app_assoc
      |rewrite length_app; lia|unfold t; lia]. }
  assert (slice (t + 1) (t + 3) p = parent) as E4.
  { apply (slice_parts (sa ++ sal ++ ni ++ [x00]) parent
             (dt ++ st ++ pid ++ man ++ tail));
      [unfold p, nd_payload; by rewrite <- !app_assoc
      |rewrite !length_app; cbn; unfold t; lia|lia]. }
  assert (slice (t + 3) (t + 4) p = dt) as E5.
  { apply (slice_parts (sa ++ sal ++ ni ++ [x00] ++ parent) dt
             (st ++ pid ++ man ++ tail));
      [unfold p, nd_payload; by rewrite <- !app_assoc
      |rewrite !length_app; cbn; unfold t; lia|lia]. }
  assert (slice (t + 4) (t + 5) p = st) as E6.
  { apply (slice_parts (sa ++ sal ++ ni ++ [x00] ++ parent ++ dt) st
             (pid ++ man ++ tail));
      [unfold p, nd_payload; by rewrite <- !app_assoc
      |rewrite !length_app; cbn; unfold t; lia|lia]. }
  assert (slice (t + 5) (t + 7) p = pid) as E7.
  { apply (slice_parts (sa ++ sal ++ ni ++ [x00] ++ parent ++ dt ++ st) pid
             (man ++ tail));
      [unfold p, nd_payload; by rewrite <- !app_assoc
      |rewrite !length_app; cbn; unfold t; lia|lia]. }
  assert (slice (t + 7) (t + 9) p = man) as E8.
  { apply (slice_parts
             (sa ++ sal ++ ni ++ [x00] ++ parent ++ dt ++ st ++ pid) man tail);
      [unfold p, nd_payload; by rewrite <- !app_assoc
      |rewrite !length_app; cbn; unfold t; lia|lia]. }
  split; [|split].
  - unfold nd_fields, nd_record. by rewrite E1, E2, E3, E4, E5, E6, E7, E8.
  - replace (t + 9) with
      (length (sa ++ sal ++ ni ++ [x00] ++ parent ++ dt ++ st ++ pid ++ man))
      by (rewrite !length_app; cbn; unfold t; lia).
    unfold p, nd_payload.
    replace (sa ++ sal ++ ni ++ [x00] ++ parent ++ dt ++ st ++ pid ++ man
             ++ tail)
      with ((sa ++ sal ++ ni ++ [x00] ++ parent ++ dt ++ st ++ pid ++ man)
            ++ tail) by (by rewrite <- !app_assoc).
    apply drop_app_length.
  - unfold p, nd_payload, t. rewrite !length_app. cbn. lia.
Qed.

(** X7: a payload put together from a 2-byte and an 8-byte address (zero
    bytes allowed in both), an identifier without zero byte, the terminator
    and fields of 2, 1, 1, 2 and 2 bytes is taken apart into exactly these
    values; a tail of 4 bytes comes back as ['device_type_id'], a tail of
    4 + 1 bytes as ['device_type_id'] and ['rssi'], and any tail of another
    length but 0 is refused with the length error. *)
Theorem parse_payload_parts fuel q sa sal ni parent dt st pid man tail :
  triggers q →
  fields q !! "parameter" =
    Some (nd_payload sa sal ni parent dt st pid man tail) →
  length sa = 2 → length sal = 8 → x00 ∉ ni →
  length parent = 2 → length dt = 1 → length st = 1 →
  length pid = 2 → length man = 2 →
  length ni < fuel →
  let base := nd_record sa sal ni parent dt st pid man in
  (tail = [] → run fuel q = Returns (Some base)) ∧
  (length tail = 4 →
     run fuel q = Returns (Some (<["device_type_id" := tail]> base))) ∧
  (∀ d c, tail = d ++ [c] → length d = 4 →
     run fuel q =
     Returns (Some (<["rssi" := [c]]> (<["device_type_id" := d]> base)))) ∧
  (length tail ∉ [0; 4; 5] →
     run fuel q =
     Raises (ValueError (19 + length ni + length tail) (19 + length ni))).
Proof.
  intros Htr Hp Hsa Hsal Hni Hpar Hdt Hst Hpid Hman Hfuel base.
  pose proof (nd_payload_terminator sa sal ni parent dt st pid man tail
                Hsa Hsal Hni) as Hf.
  destruct (nd_payload_fields sa sal ni parent dt st pid man tail)
    as (Hrec & Hdrop & Hlen); [done..|].
  cbv zeta in Hrec, Hdrop, Hlen.
  rewrite (run_body fuel q _ (10 + length ni) Htr Hp Hf) by lia.
  set (p := nd_payload sa sal ni parent dt st pid man tail) in *.
  set (t := 10 + length ni) in *.
  split; [|split; [|split]].
  - intros ->. cbn in Hlen.
    rewrite !decide_False, decide_True by lia. by rewrite Hrec.
  - intros H4. rewrite decide_True by lia.
    unfold nd_fields_4. rewrite Hrec. do 3 f_equal.
    rewrite <- Hdrop. unfold slice.
    replace (t + 13 - (t + 9)) with 4 by lia.
    apply take_ge. rewrite Hdrop. lia.
  - intros d c -> Hd. rewrite length_app in Hlen. cbn in Hlen.
    rewrite decide_False, decide_True by lia.
    unfold nd_fields_5, nd_fields_4. rewrite Hrec.
    assert (slice (t + 9) (t + 13) p = d) as ->.
    { unfold slice. rewrite Hdrop.
      replace (t + 13 - (t + 9)) with (length d) by lia.
      apply take_app_length. }
    assert (slice (t + 13) (t + 14) p = [c]) as ->; [|done].
    unfold slice. replace (t + 13) with (t + 9 + 4) by lia.
    rewrite <- drop_drop, Hdrop.
    replace (drop 4 (d ++ [c])) with [c]
      by (rewrite <- Hd; by rewrite drop_app_length).
    by replace (t + 14 - (t + 9 + 4)) with 1 by lia.
  - intros Hn. rewrite !elem_of_cons, elem_of_nil in Hn.
    rewrite !decide_False by lia.
    do 2 f_equal; unfold t in *; lia.
Qed.

Lemma parse_payload_parts_witness :
  run 20 (fn_packet tail5) =
  Returns (Some (<["rssi" := [x2b]]>
                (<["device_type_id" := [x00; x03; x00; x00]]>
                (nd_record [x12; x34]
                   [x00; x13; xa2; x00; x40; x0a; x0b; x0c] [x41; x42]
                   [xff; xfe] [x01] [x00] [xc1; x05] [x10; x1e])))).
Proof.
  apply (parse_payload_parts 20 (fn_packet tail5) [x12; x34]
           [x00; x13; xa2; x00; x40; x0a; x0b; x0c] [x41; x42]
           [xff; xfe] [x01] [x00] [xc1; x05] [x10; x1e] tail5);
    try reflexivity; compute_done.
Defined.

(** ** What the outcome depends on *)

Lemma guard_view q q' : view q = view q' → guard q = guard q'.
Proof.
  unfold view, guard. intros [= Hid Hcmd Hst _]. rewrite Hid, Hst.
  destruct (fields q !! "command") as [c|],
           (fields q' !! "command") as [c'|]; simplify_eq/=; [|done].
  by rewrite Hcmd.
Qed.

(** X8: the outcome depends on the record only through its id, its
    command up to case, its status and its parameter: two records that
    agree on these four have the same outcome, whatever else they hold. *)
Theorem run_view fuel q q' : view q = view q' → run fuel q = run fuel q'.
Proof.
  intros Hv. pose proof (guard_view q q' Hv) as Hg.
  assert (fields q !! "parameter" = fields q' !! "parameter") as Hp
    by (by injection Hv).
  pose proof (run_guard_cases fuel q) as Hq.
  pose proof (run_guard_cases fuel q') as Hq'.
  rewrite <- Hg, <- Hp in Hq'.
  destruct (guard q) as [e|[]]; [congruence| |congruence].
  destruct Hq as [_ Hq], Hq' as [_ Hq'].
  destruct (fields q !! "parameter") as [p|]; [|congruence].
  destruct Hq as [(t & Hf & Hfuel & Hq)|[Hall Hq]],
           Hq' as [(t' & Hf' & Hfuel' & Hq')|[Hall' Hq']].
  - assert (t' = t) as -> by (by eapply first_nul_from_unique).
    congruence.
  - specialize (Hall' t Hf). lia.
  - specialize (Hall t' Hf'). lia.
  - congruence.
Qed.

Lemma run_view_witness :
  run 20 (Packet "at_response"
            (<["command" := [x66; x4e]]> (<["status" := [x00]]>
            (<["parameter" := nd_parameter tail4]> ∅)))) =
  run 20 (fn_packet tail4).
Proof.
  apply run_view. reflexivity.
Defined.

(** ** The spellings of the command *)

Lemma byte_lower_f c : byte_lower c = x66 → c = x46 ∨ c = x66.
Proof.
  destruct c; intros H; vm_compute in H;
    first [discriminate H | by left | by right].
Qed.

Lemma byte_lower_n c : byte_lower c = x6e → c = x4e ∨ c = x6e.
Proof.
  destruct c; intros H; vm_compute in H;
    first [discriminate H | by left | by right].
Qed.

Lemma lower_fn_iff c : lower c = b_fn ↔ c ∈ fn_spellings.
Proof.
  unfold fn_spellings. rewrite !elem_of_cons, elem_of_nil. split.
  - destruct c as [|a [|b [|? ?]]]; [done|done| |done].
    intros [= Ha Hb].
    destruct (byte_lower_f a Ha) as [-> | ->],
             (byte_lower_n b Hb) as [-> | ->]; auto 10.
  - intros [->|[->|[->|[->|[]]]]]; reflexivity.
Qed.

(** X9: a record whose command is not one of the four spellings [fn],
    [fN], [Fn], [FN] is answered [None]: only these four can lead to a
    record, an exception or a scan. *)
Theorem command_spellings fuel q c :
  fields q !! "command" = Some c →
  run fuel q ≠ Returns None →
  c ∈ fn_spellings.
Proof.
  intros Hc Hrun. apply lower_fn_iff.
  destruct (decide (lower c = b_fn)) as [|Hl]; [done|].
  destruct Hrun. pose proof (run_guard_cases fuel q) as Hq.
  unfold guard in Hq. rewrite Hc, (decide_False (P := lower c = b_fn)) in Hq
    by done.
  by destruct (decide (id q ∈ guard_names)).
Qed.

Lemma command_spellings_witness : [x46; x4e] ∈ fn_spellings.
Proof.
  apply (command_spellings 20 (fn_packet tail4)).
  - reflexivity.
  - vm_compute. discriminate.
Defined.

(** ** Payloads that are never answered *)

(** X10: a triggering record whose parameter has at most ten bytes, the
    empty one included, gets no answer for any fuel: there is nothing to
    find from index 10 on, and the scan never looks at the length. *)
Theorem short_parameter_no_outcome fuel q p :
  triggers q →
  fields q !! "parameter" = Some p →
  length p ≤ 10 →
  run fuel q = NoOutcome.
Proof.
  intros Htr Hp Hlen. unfold run.
  rewrite (parse_FN_no_terminator fuel q p); [done|done|done|].
  intros j Hj Hz. apply lookup_lt_Some in Hz. lia.
Qed.

Lemma short_parameter_no_outcome_witness :
  run 1000 (at_packet "at_response" [x46; x4e] [x00] []) = NoOutcome.
Proof.
  apply (short_parameter_no_outcome 1000 _ []).
  - compute_done.
  - reflexivity.
  - vm_compute. lia.
Defined.

(** X11: with the terminator at [t] the loop takes [t - 10] increments:
    there is no outcome while the fuel is at most [t - 10], and there is
    one as soon as it is larger. *)
Theorem loop_iterations fuel q p t :
  triggers q →
  fields q !! "parameter" = Some p →
  first_nul_from 10 p t →
  run fuel q = NoOutcome ↔ fuel ≤ t - 10.
Proof.
  intros Htr Hp Hf.
  destruct (run_triggered_cases fuel q p Htr Hp)
    as [(t' & Hf' & Hfuel)|[Hall Hrun]].
  - assert (t' = t) as -> by (by eapply first_nul_from_unique).
    rewrite (run_body fuel q p t) by done.
    split; [|lia]. intros Hr. exfalso. clear -Hr.
    repeat case_decide; discriminate.
  - split; [|done]. intros _. by apply Hall.
Qed.

Lemma loop_iterations_witness :
  run 2 (fn_packet tail4) = NoOutcome ↔ 2 ≤ 12 - 10.
Proof.
  apply (loop_iterations 2 (fn_packet tail4) (nd_parameter tail4) 12).
  - compute_done.
  - reflexivity.
  - compute_done.
Defined.

(** ** The tables *)

Lemma assoc_elem_of k v d : assoc k d = Some v → (k, v) ∈ d.
Proof.
  induction d as [|[k' v'] d IH]; [done|]. cbn.
  case_decide; intros; simplify_eq; [left|right; auto].
Qed.

(** X12: every command schema starts with a one-byte ['id'] whose default
    is a [str] literal of one character and a one-byte ['frame_id'] whose
    default is the [str] literal ['\x00'], ends with its only field
    without length, which has no default, has no null-terminated field and
    no field name twice, and every default in it has the declared
    length. *)
Theorem api_commands_well_formed cmd schema :
  api_commands !! cmd = Some schema →
  (∃ b rest, schema = Field "id" (Fixed 1) (Some (Str [b]))
                      :: Field "frame_id" (Fixed 1) (Some (Str [x00])) :: rest) ∧
  (∃ f, last schema = Some f ∧ len f = LenNone ∧ default f = None) ∧
  open_only_last schema ∧
  Forall (λ f, len f ≠ NullTerminated) schema ∧
  NoDup (name <$> schema) ∧
  Forall default_fits schema.
Proof.
  unfold api_commands. intros H.
  repeat (apply lookup_insert_Some in H as [[_ <-]|[_ H]];
          [split; [by eexists _, _|];
           split; [by eexists|];
           repeat split; compute_done|]).
  by rewrite lookup_empty in H.
Qed.

Lemma api_commands_well_formed_witness :
  Forall default_fits
    [ Field "id" (Fixed 1) (Some (Str [x17]));
      Field "frame_id" (Fixed 1) (Some (Str [x00]));
      Field "dest_addr_long" (Fixed 8) None;
      Field "reserved" (Fixed 2) (Some (Str [xff; xfe]));
      Field "options" (Fixed 1) (Some (Str [x02]));
      Field "command" (Fixed 2) None;
      Field "parameter" LenNone None ].
Proof.
  apply (api_commands_well_formed "remote_at"). reflexivity.
Defined.

(** X13: the four commands have four different id bytes: a frame's first
    byte tells which command it is. *)
Theorem command_ids_distinct cmd cmd' schema schema' :
  api_commands !! cmd = Some schema →
  api_commands !! cmd' = Some schema' →
  head schema = head schema' →
  cmd = cmd'.
Proof.
  unfold api_commands. intros H H' Hh.
  repeat (apply lookup_insert_Some in H as [[<- <-]|[_ H]];
          [repeat (apply lookup_insert_Some in H' as [[<- <-]|[_ H']];
                   [done || discriminate Hh|]);
           by rewrite lookup_empty in H'|]).
  by rewrite lookup_empty in H.
Qed.

Lemma command_ids_distinct_witness : "tx" = "tx".
Proof.
  apply (command_ids_distinct "tx" "tx"
           [ Field "id" (Fixed 1) (Some (Str [x10]));
             Field "frame_id" (Fixed 1) (Some (Str [x00]));
             Field "dest_addr" (Fixed 8) None;
             Field "reserved" (Fixed 2) (Some (Str [xff; xfe]));
             Field "broadcast_radius" (Fixed 1) (Some (Str [x00]));
             Field "options" (Fixed 1) (Some (Str [x00]));
             Field "data" LenNone None ]
           [ Field "id" (Fixed 1) (Some (Str [x10]));
             Field "frame_id" (Fixed 1) (Some (Str [x00]));
             Field "dest_addr" (Fixed 8) None;
             Field "reserved" (Fixed 2) (Some (Str [xff; xfe]));
             Field "broadcast_radius" (Fixed 1) (Some (Str [x00]));
             Field "options" (Fixed 1) (Some (Str [x00]));
             Field "data" LenNone None ]); reflexivity.
Defined.

Lemma api_responses_cases k nm structure parsing :
  assoc k api_responses = Some (Response nm structure parsing) →
  (k, Response nm structure parsing) ∈
    [ (KBytes [x88],
       Response "at_response"
         [ rfield "frame_id" (Fixed 1); rfield "command" (Fixed 2);
           rfield "status" (Fixed 1); rfield "parameter" LenNone ]
         (Some [("parameter", Parse_FN_at_response)]));
      (KBytes [x8a], Response "status" [ rfield "status" (Fixed 1) ] None);
      (KBytes [x8b],
       Response "tx_status"
         [ rfield "frame_id" (Fixed 1);
           Field "reserved" (Fixed 2) (Some (Str [xff; xfe]));
           rfield "retries" (Fixed 1); rfield "deliver_status" (Fixed 1);
           rfield "discover_status" (Fixed 1) ] None);
      (KBytes [x90],
       Response "rx"
         [ rfield "frame_id" (Fixed 1); rfield "source_addr" (Fixed 7);
           rfield "reserved" (Fixed 2); rfield "options" (Fixed 1);
           rfield "data" LenNone ] None);
      (KBytes [x95],
       Response "node_id"
         [ rfield "source_addr_long" (Fixed 8);
           rfield "network_addr" (Fixed 2); rfield "options" (Fixed 1);
           rfield "source_addr" (Fixed 2);
           rfield "network_addr_long" (Fixed 8);
           rfield "node_id" NullTerminated; rfield "parent" (Fixed 2);
           rfield "unknown" LenNone ] None);
      (KBytes [x97],
       Response "remote_at_response"
         [ rfield "frame_id" (Fixed 1); rfield "source_addr" (Fixed 8);
           rfield "reserved" (Fixed 2); rfield "command" (Fixed 2);
           rfield "status" (Fixed 1); rfield "parameter" LenNone ] None) ].
Proof.
  intros H. apply assoc_elem_of in H. unfold api_responses in H.
  rewrite !elem_of_cons, elem_of_nil in H.
  rewrite !elem_of_cons, elem_of_nil.
  destruct H as [H|[H|[H|[H|[H|[H|[H|[]]]]]]]]; [auto 10..|done].
Qed.

(** X14: every response description is keyed by a single byte, has no
    field name twice, a field without length only at its end, at most one
    null-terminated field, defaults of the declared length, and every
    parsing rule it declares names its last field, the one without
    length. *)
Theorem api_responses_well_formed k nm structure parsing :
  assoc k api_responses = Some (Response nm structure parsing) →
  (∃ b, k = KBytes [b]) ∧
  NoDup (name <$> structure) ∧
  open_only_last structure ∧
  length (filter (λ f, len f = NullTerminated) structure) ≤ 1 ∧
  Forall default_fits structure ∧
  ∀ rules, parsing = Some rules →
    Forall (λ rule, ∃ f, last structure = Some f ∧ name f = rule.1 ∧
                         len f = LenNone) rules.
Proof.
  intros H. apply api_responses_cases in H.
  rewrite !elem_of_cons, elem_of_nil in H.
  destruct H as [H|[H|[H|[H|[H|[H|[]]]]]]]; simplify_eq;
    (split; [by eexists|]);
    (split; [compute_done|]); (split; [compute_done|]);
    (split; [vm_compute; lia|]); (split; [compute_done|]);
    intros rules [= <-].
  repeat constructor. by eexists.
Qed.

Lemma api_responses_well_formed_witness :
  length (filter (λ f, len f = NullTerminated)
            [ rfield "source_addr_long" (Fixed 8);
              rfield "network_addr" (Fixed 2); rfield "options" (Fixed 1);
              rfield "source_addr" (Fixed 2);
              rfield "network_addr_long" (Fixed 8);
              rfield "node_id" NullTerminated; rfield "parent" (Fixed 2);
              rfield "unknown" LenNone ]) ≤ 1.
Proof.
  apply (api_responses_well_formed (KBytes [x95]) "node_id" _ None).
  reflexivity.
Defined.

(** X15: no two response descriptions have the same name: the ['id'] of a
    decoded record tells the type byte of its frame. *)
Theorem response_names_distinct k k' nm structure structure' parsing parsing' :
  assoc k api_responses = Some (Response nm structure parsing) →
  assoc k' api_responses = Some (Response nm structure' parsing') →
  k = k' ∧ structure = structure' ∧ parsing = parsing'.
Proof.
  intros H H'. apply api_responses_cases in H, H'.
  rewrite !elem_of_cons, elem_of_nil in H, H'.
  destruct H as [H|[H|[H|[H|[H|[H|[]]]]]]];
    destruct H' as [H'|[H'|[H'|[H'|[H'|[H'|[]]]]]]];
    by simplify_eq.
Qed.

Lemma response_names_distinct_witness :
  KBytes [x8a] = KBytes [x8a] ∧
  [ rfield "status" (Fixed 1) ] = [ rfield "status" (Fixed 1) ] ∧
  @None parsing_rules = None.
Proof.
  apply (response_names_distinct (KBytes [x8a]) (KBytes [x8a]) "status");
    reflexivity.
Defined.
